(** * Preseed composition (maasserver/compose_preseed.py)

    A shallow embedding of the low-level preseed composer: proxy
    resolution, repository-name sanitization, the APT archive block, the
    cloud-config and debconf documents, and the top-level dispatcher. *)

From Stdlib Require Import String Ascii List ZArith NArith Bool Lia.
From Stdlib Require Import DecimalString DecimalZ DecimalPos.
Import ListNotations.

Open Scope list_scope.
Open Scope string_scope.

(** ** Python strings

    A [str] is modelled as a Rocq [string], one character per code point
    (code points below 256).  The functions below are the [str] methods
    the composer calls. *)

Module PyStr.

Definition newline : ascii := "010"%char.
Definition backslash : ascii := "092"%char.

(** Code points below 256 for which [str.isspace] holds: TAB..CR,
    FS..US, SPACE, NEL and NBSP. *)
Definition is_space_char (c : ascii) : bool :=
  let n := N_of_ascii c in
  ((9 <=? n) && (n <=? 13) || (28 <=? n) && (n <=? 32)
   || (n =? 133) || (n =? 160))%N.

(** Upper-case code points below 256: A..Z and the Latin-1 capitals
    (all of 192..222 but the multiplication sign 215). *)
Definition is_upper_char (c : ascii) : bool :=
  let n := N_of_ascii c in
  ((65 <=? n) && (n <=? 90)
   || (192 <=? n) && (n <=? 222) && negb (n =? 215))%N.

Definition lower_char (c : ascii) : ascii :=
  if is_upper_char c then ascii_of_N (N_of_ascii c + 32) else c.

Fixpoint mem_char (c : ascii) (s : string) : bool :=
  match s with
  | EmptyString => false
  | String d s' => Ascii.eqb c d || mem_char c s'
  end.

Fixpoint all_chars (p : ascii -> bool) (s : string) : bool :=
  match s with
  | EmptyString => true
  | String c s' => p c && all_chars p s'
  end.

Fixpoint map_chars (f : ascii -> ascii) (s : string) : string :=
  match s with
  | EmptyString => EmptyString
  | String c s' => String (f c) (map_chars f s')
  end.

Fixpoint filter_chars (p : ascii -> bool) (s : string) : string :=
  match s with
  | EmptyString => EmptyString
  | String c s' =>
      if p c then String c (filter_chars p s') else filter_chars p s'
  end.

Definition is_empty (s : string) : bool :=
  match s with EmptyString => true | _ => false end.

(** [s.translate({ord(c): None for c in table})] *)
Definition translate_delete (table : string) (s : string) : string :=
  filter_chars (fun c => negb (mem_char c table)) s.

(** [s.lstrip()], [s.rstrip()] and [s.strip()] *)
Fixpoint lstrip (s : string) : string :=
  match s with
  | EmptyString => EmptyString
  | String c s' => if is_space_char c then lstrip s' else s
  end.

Fixpoint rstrip (s : string) : string :=
  match s with
  | EmptyString => EmptyString
  | String c s' =>
      match rstrip s' with
      | EmptyString =>
          if is_space_char c then EmptyString else String c EmptyString
      | r => String c r
      end
  end.

Definition strip (s : string) : string := rstrip (lstrip s).

(** [s.replace(old, new)] for a pattern [old] of one character, which
    is how the composer calls it. *)
Fixpoint replace_char (old : ascii) (new : string) (s : string) : string :=
  match s with
  | EmptyString => EmptyString
  | String c s' =>
      if Ascii.eqb c old then new ++ replace_char old new s'
      else String c (replace_char old new s')
  end.

(** [s.lower()] *)
Definition lower (s : string) : string := map_chars lower_char s.

(** [s.isspace()]: at least one character, and all of them whitespace *)
Definition isspace (s : string) : bool :=
  negb (is_empty s) && all_chars is_space_char s.

(** [s.startswith(p)] and [sub in s] *)
Definition startswith (p s : string) : bool := prefix p s.

Fixpoint contains (sub s : string) : bool :=
  prefix sub s
  || match s with
     | EmptyString => false
     | String _ s' => contains sub s'
     end.

Fixpoint last_char (s : string) : option ascii :=
  match s with
  | EmptyString => None
  | String c s' =>
      match last_char s' with
      | None => Some c
      | Some d => Some d
      end
  end.

(** [s.endswith(suffix)] *)
Fixpoint endswith (suffix s : string) : bool :=
  String.eqb suffix s
  || match s with
     | EmptyString => false
     | String _ s' => endswith suffix s'
     end.

(** ["%s" % n] and ["%d" % n] for an [int] *)
Definition str_of_int (z : Z) : string :=
  NilEmpty.string_of_int (Z.to_int z).

(** The characters a rendered [int] is made of. *)
Definition is_dec_char (c : ascii) : bool := mem_char c "-0123456789".

(** [sep.join(items)] *)
Definition join (sep : string) (items : list string) : string :=
  String.concat sep items.

End PyStr.

Import PyStr.

(** ** Repositories and name sanitization *)

Record PackageRepository := {
  repo_id : Z;
  repo_name : string;
  repo_url : string;
  repo_key : string;
  repo_components : list string;
  repo_distributions : list string
}.

(** The characters [make_clean_repo_name] deletes from a display name. *)
Definition special_characters : string := "'!@#$[]{}".

Definition make_clean_repo_name (repo : PackageRepository) : string :=
  let repo_name :=
    translate_delete special_characters (repo_name repo)
      ++ "_" ++ str_of_int (repo_id repo) in
  lower (replace_char " " "_" (strip repo_name)).

(** The debconf escaping applied to the dumped configuration. *)
Definition debconf_escape (s : string) : string :=
  replace_char newline (String backslash "n")
    (replace_char backslash (String backslash (String backslash "")) s).

(** ** Configuration documents

    The composer assembles Python dicts and hands them to [yaml.safe_dump].
    A dict keeps its keys in insertion order, so it is an association list
    whose item assignment replaces in place or appends. *)

#[local] Set Warnings "-register-all".

Inductive yaml : Type :=
| YStr (s : string)
| YBool (b : bool)
| YInt (z : Z)
| YSeq (items : list yaml)
| YMap (items : list (string * yaml)).

Definition dict : Type := list (string * yaml).

Module Dict.

Fixpoint get (k : string) (d : dict) : option yaml :=
  match d with
  | [] => None
  | (k', v) :: d' => if String.eqb k k' then Some v else get k d'
  end.

(** [d[k] = v] *)
Fixpoint set (k : string) (v : yaml) (d : dict) : dict :=
  match d with
  | [] => [(k, v)]
  | (k', v') :: d' =>
      if String.eqb k k' then (k, v) :: d' else (k', v') :: set k v d'
  end.

(** [k in d.keys()] *)
Definition has (k : string) (d : dict) : bool :=
  match get k d with Some _ => true | None => false end.

(** [d.update(other)] *)
Definition update (d other : dict) : dict :=
  fold_left (fun acc kv => set (fst kv) (snd kv) acc) other d.

(** [d[k1][k2] = v], for [d[k1]] a dict *)
Definition set_in (k1 k2 : string) (v : yaml) (d : dict) : dict :=
  match get k1 d with
  | Some (YMap inner) => set k1 (YMap (set k2 v inner)) d
  | _ => d
  end.

(** The value reached by following a path of keys through nested dicts. *)
Fixpoint get_path (path : list string) (y : yaml) : option yaml :=
  match path with
  | [] => Some y
  | k :: path' =>
      match y with
      | YMap d =>
          match get k d with
          | Some v => get_path path' v
          | None => None
          end
      | _ => None
      end
  end.

End Dict.

(** Whether [k] is a key of [y] or of a dict nested anywhere inside it. *)
Fixpoint mentions_key (k : string) (y : yaml) : bool :=
  match y with
  | YSeq items => existsb (mentions_key k) items
  | YMap items =>
      existsb (fun kv => String.eqb k (fst kv) || mentions_key k (snd kv))
        items
  | _ => false
  end.

(** ** Machines, archives, credentials and request kinds *)

(** Modelled from the spec: maasserver.enum is not among the sources.  The
    two statuses the composer compares against, and every other status
    under its numeric code. *)
Inductive NODE_STATUS : Type :=
| DISK_ERASING
| ENTERING_RESCUE_MODE
| OTHER_STATUS (code : Z).

Definition NODE_STATUS_eqb (a b : NODE_STATUS) : bool :=
  match a, b with
  | DISK_ERASING, DISK_ERASING => true
  | ENTERING_RESCUE_MODE, ENTERING_RESCUE_MODE => true
  | OTHER_STATUS m, OTHER_STATUS n => Z.eqb m n
  | _, _ => false
  end.

(** Modelled from the spec: maasserver.enum is not among the sources.  The
    request kinds of the data model. *)
Inductive PRESEED_TYPE : Type :=
| COMMISSIONING
| CURTIN
| DEFAULT.

Definition PRESEED_TYPE_eqb (a b : PRESEED_TYPE) : bool :=
  match a, b with
  | COMMISSIONING, COMMISSIONING => true
  | CURTIN, CURTIN => true
  | DEFAULT, DEFAULT => true
  | _, _ => false
  end.

Record RackController := {
  rack_url : string
}.

Record Node := {
  system_id : string;
  status : NODE_STATUS;
  distro_series : string;
  split_arch : string * string;
  get_boot_rack_controller : RackController
}.

(** The default archive of an architecture, as the composer reads it. *)
Record Archive := {
  archive_url : string;
  archive_key : string;
  archive_disabled_pockets : list string
}.

Record Token := {
  consumer_key : string;
  token_key : string;
  token_secret : string
}.

(** ** Failures *)

Inductive exn : Type :=
| NotImplementedError
| NoSuchOperatingSystem
| NoConnectionsAvailable
| AttributeError.

Inductive result (A : Type) : Type :=
| Ok (a : A)
| Raise (e : exn).

Arguments Ok {A} a.
Arguments Raise {A} e.

Definition rbind {A B : Type} (r : result A) (k : A -> result B) : result B :=
  match r with
  | Ok a => k a
  | Raise e => Raise e
  end.

(** ** The collaborators of the composer

    Everything the module imports and calls: the configuration store, the
    repository manager, the address helpers, the token store, the
    OS-specific preseed provider, [yaml.safe_dump] and [urlencode]. *)

Record World := {
  enable_http_proxy : bool;
  http_proxy : option string;
  (** Modelled from the spec: the manager is not among the sources;
      [None] is an architecture without a default archive. *)
  get_default_archive : string -> option Archive;
  get_additional_repositories : string -> list PackageRepository;
  get_main_archive : Archive;
  get_ports_archive : Archive;
  get_maas_facing_server_host : RackController -> string;
  absolute_reverse : string -> list string -> string -> string;
  get_token_for_node : Node -> Token;
  get_preseed_data :
    PRESEED_TYPE -> Node -> Token -> string -> result string;
  safe_dump : yaml -> string;
  urlencode : list (string * string) -> string
}.

(** One invocation of the OS-specific provider. *)
Record DelegateCall := {
  call_kind : PRESEED_TYPE;
  call_node : Node;
  call_token : Token;
  call_metadata_url : string
}.

(** Computations that may raise and that record the provider calls they
    make. *)
Definition Comp (A : Type) : Type :=
  list DelegateCall -> result A * list DelegateCall.

Definition ret {A : Type} (a : A) : Comp A := fun log => (Ok a, log).

Definition raise {A : Type} (e : exn) : Comp A := fun log => (Raise e, log).

Definition bind {A B : Type} (m : Comp A) (k : A -> Comp B) : Comp B :=
  fun log =>
    match m log with
    | (Ok a, log') => k a log'
    | (Raise e, log') => (Raise e, log')
    end.

Definition lift {A : Type} (r : result A) : Comp A := fun log => (r, log).

(** [try: m  except: handler] *)
Definition try_except {A : Type} (m : Comp A) (handler : exn -> Comp A)
  : Comp A :=
  fun log =>
    match m log with
    | (Ok a, log') => (Ok a, log')
    | (Raise e, log') => handler e log'
    end.

Notation "x <- m ;; k" := (rbind m (fun x => k))
  (at level 61, m at next level, right associativity).

Definition RSYSLOG_PORT : Z := 514.

(** Truth value of a string or of a list, as [if x:] tests it. *)
Definition truthy (s : string) : bool := negb (is_empty s).

Definition nonempty {A : Type} (l : list A) : bool :=
  match l with [] => false | _ => true end.

Definition truthy_opt (o : option string) : bool :=
  match o with Some s => truthy s | None => false end.

(** [timedelta(days=d, hours=h).total_seconds()], read back with [int]. *)
Definition timedelta_total_seconds (days hours : Z) : Z :=
  (days * 86400 + hours * 3600)%Z.

(** ** The composer *)

Section Composer.

Variable w : World.

Definition get_apt_proxy_for_node (node : Node) : option string :=
  if enable_http_proxy w then
    let http_proxy := http_proxy w in
    if match http_proxy with
       | Some p => Nat.ltb 0 (String.length p) && negb (isspace p)
       | None => false
       end
    then http_proxy
    else
      Some ("http://"
            ++ get_maas_facing_server_host w (get_boot_rack_controller node)
            ++ ":8000/")
  else None.

(** The value of [components] the loop of [get_archive_config] computes
    for a generic repository. *)
Definition repository_components (repo : PackageRepository) : string :=
  let components :=
    if negb (nonempty (repo_components repo)) then "main"
    else
      fold_left (fun acc component => acc ++ component ++ " ")
        (repo_components repo) "" in
  strip components.

(** The value of [url] the loop of [get_archive_config] computes for one
    additional repository. *)
Definition repository_source (node : Node) (repo : PackageRepository)
  : string :=
  if startswith "ppa:" (repo_url repo) then repo_url repo
  else if contains "ppa.launchpad.net" (repo_url repo) then
    "deb " ++ repo_url repo ++ " " ++ distro_series node ++ " main"
  else
    let components := repository_components repo in
    if negb (nonempty (repo_distributions repo)) then
      "deb " ++ repo_url repo ++ " " ++ distro_series node
        ++ " " ++ components
    else
      fold_left
        (fun url dist =>
           url ++ "deb " ++ repo_url repo ++ " " ++ dist ++ " "
             ++ components ++ String newline "")
        (repo_distributions repo) "".

(** One iteration of the loop over the additional repositories, on the
    dict [archives['apt']]. *)
Definition add_repository (node : Node) (apt : dict)
    (repo : PackageRepository) : dict :=
  let url := repository_source node repo in
  let apt :=
    if negb (Dict.has "sources" apt)
    then Dict.set "sources" (YMap []) apt
    else apt in
  let repo_name := make_clean_repo_name repo in
  if truthy (repo_key repo) then
    Dict.set_in "sources" repo_name
      (YMap [("key", YStr (repo_key repo)); ("source", YStr url)]) apt
  else
    Dict.set_in "sources" repo_name (YMap [("source", YStr url)]) apt.

Definition get_archive_config (node : Node) (preserve_sources : bool)
  : result dict :=
  let arch := fst (split_arch node) in
  archive <-
    match get_default_archive w arch with
    | Some archive => Ok archive
    | None => Raise AttributeError
    end ;;
  let repositories := get_additional_repositories w arch in
  let apt_proxy := get_apt_proxy_for_node node in
  let apt :=
    [ ("preserve_sources_list", YBool preserve_sources);
      ("primary",
        YSeq [YMap [("arches", YSeq [YStr "default"]);
                    ("uri", YStr (archive_url archive))]]);
      ("security",
        YSeq [YMap [("arches", YSeq [YStr "default"]);
                    ("uri", YStr (archive_url archive))]]) ] in
  let apt :=
    if nonempty (archive_disabled_pockets archive)
    then Dict.set "disable_suites"
           (YSeq (map YStr (archive_disabled_pockets archive))) apt
    else apt in
  let apt :=
    match apt_proxy with
    | Some p => if truthy p then Dict.set "proxy" (YStr p) apt else apt
    | None => apt
    end in
  let apt :=
    if truthy (archive_key archive)
    then Dict.set "sources"
           (YMap [("archive_key",
                    YMap [("key", YStr (archive_key archive))])]) apt
    else apt in
  let apt := fold_left (add_repository node) repositories apt in
  Ok [("apt", YMap apt)].

Definition get_rsyslog_host_port (node : Node) : string :=
  get_maas_facing_server_host w (get_boot_rack_controller node)
    ++ ":" ++ str_of_int RSYSLOG_PORT.

Definition get_system_info : dict :=
  [ ("system_info",
      YMap [
        ("package_mirrors",
          YSeq [
            YMap [
              ("arches", YSeq [YStr "i386"; YStr "amd64"]);
              ("search",
                YMap [
                  ("primary",
                    YSeq [YStr (archive_url (get_main_archive w))]);
                  ("security",
                    YSeq [YStr (archive_url (get_main_archive w))]) ]);
              ("failsafe",
                YMap [
                  ("primary", YStr "http://archive.ubuntu.com/ubuntu");
                  ("security", YStr "http://security.ubuntu.com/ubuntu")
                ]) ];
            YMap [
              ("arches", YSeq [YStr "default"]);
              ("search",
                YMap [
                  ("primary",
                    YSeq [YStr (archive_url (get_ports_archive w))]);
                  ("security",
                    YSeq [YStr (archive_url (get_ports_archive w))]) ]);
              ("failsafe",
                YMap [
                  ("primary", YStr "http://ports.ubuntu.com/ubuntu-ports");
                  ("security", YStr "http://ports.ubuntu.com/ubuntu-ports")
                ]) ] ]) ]) ].

(** The dict [config] that [compose_cloud_init_preseed] builds and then
    dumps. *)
Definition compose_cloud_init_preseed_config (node : Node) (token : Token)
    (base_url : string) : result dict :=
  let config :=
    [ ("manage_etc_hosts", YBool false);
      ("apt_preserve_sources_list", YBool true);
      ("manual_cache_clean", YBool true);
      ("reporting",
        YMap [
          ("maas",
            YMap [
              ("type", YStr "webhook");
              ("endpoint",
                YStr (absolute_reverse w "metadata-status"
                        [system_id node] base_url));
              ("consumer_key", YStr (consumer_key token));
              ("token_key", YStr (token_key token));
              ("token_secret", YStr (token_secret token)) ]) ]) ] in
  let config := Dict.update config get_system_info in
  let apt_proxy := get_apt_proxy_for_node node in
  let config :=
    match apt_proxy with
    | Some p =>
        if truthy p then Dict.set "apt_proxy" (YStr p) config else config
    | None => config
    end in
  archives <- get_archive_config node false ;;
  let config := Dict.update config archives in
  Ok config.

(** One debconf line of the preseed. *)
Definition preseed_line (item : string * string * string) : string :=
  let '(item_name, item_type, item_value) := item in
  "cloud-init   cloud-init/" ++ item_name ++ "  " ++ item_type
    ++ " " ++ item_value.

Definition compose_cloud_init_preseed (node : Node) (token : Token)
    (base_url : string) : result string :=
  let credentials :=
    urlencode w
      [ ("oauth_consumer_key", consumer_key token);
        ("oauth_token_key", token_key token);
        ("oauth_token_secret", token_secret token) ] in
  config <- compose_cloud_init_preseed_config node token base_url ;;
  let local_config_yaml := safe_dump w (YMap config) in
  let local_config := debconf_escape local_config_yaml in
  let preseed_items :=
    [ ("datasources", "multiselect", "MAAS");
      ("maas-metadata-url", "string",
        absolute_reverse w "metadata" [] base_url);
      ("maas-metadata-credentials", "string", credentials);
      ("local-cloud-config", "string", local_config) ] in
  Ok (join (String newline "") (map preseed_line preseed_items)).

(** The dict [cloud_config] that [_compose_cloud_init_preseed] builds and
    then dumps. *)
Definition _compose_cloud_init_preseed_config (node : Node) (token : Token)
    (metadata_url base_url : string) (poweroff : bool)
    (poweroff_timeout : Z) (poweroff_condition : option string)
  : result dict :=
  let cloud_config :=
    [ ("datasource",
        YMap [
          ("MAAS",
            YMap [
              ("metadata_url", YStr metadata_url);
              ("consumer_key", YStr (consumer_key token));
              ("token_key", YStr (token_key token));
              ("token_secret", YStr (token_secret token)) ]) ]);
      ("reporting",
        YMap [
          ("maas",
            YMap [
              ("type", YStr "webhook");
              ("endpoint",
                YStr (absolute_reverse w "metadata-status"
                        [system_id node] base_url));
              ("consumer_key", YStr (consumer_key token));
              ("token_key", YStr (token_key token));
              ("token_secret", YStr (token_secret token)) ]) ]);
      ("rsyslog",
        YMap [
          ("remotes",
            YMap [ ("maas", YStr (get_rsyslog_host_port node)) ]) ]) ] in
  let cloud_config := Dict.update cloud_config get_system_info in
  let apt_proxy := get_apt_proxy_for_node node in
  let cloud_config :=
    match apt_proxy with
    | Some p =>
        if truthy p then Dict.set "apt_proxy" (YStr p) cloud_config
        else cloud_config
    | None => cloud_config
    end in
  archives <- get_archive_config node false ;;
  let cloud_config := Dict.update cloud_config archives in
  let cloud_config :=
    if poweroff then
      let cloud_config :=
        Dict.set "power_state"
          (YMap [ ("delay", YStr "now");
                  ("mode", YStr "poweroff");
                  ("timeout", YInt poweroff_timeout) ]) cloud_config in
      match poweroff_condition with
      | Some condition =>
          Dict.set_in "power_state" "condition" (YStr condition)
            cloud_config
      | None => cloud_config
      end
    else cloud_config in
  Ok cloud_config.

Definition _compose_cloud_init_preseed (node : Node) (token : Token)
    (metadata_url base_url : string) (poweroff : bool)
    (poweroff_timeout : Z) (poweroff_condition : option string)
  : result string :=
  cloud_config <-
    _compose_cloud_init_preseed_config node token metadata_url base_url
      poweroff poweroff_timeout poweroff_condition ;;
  Ok ("#cloud-config" ++ String newline (safe_dump w (YMap cloud_config))).

Definition compose_commissioning_preseed (node : Node) (token : Token)
    (base_url : string) : result string :=
  let metadata_url := absolute_reverse w "metadata" [] base_url in
  let poweroff := negb (NODE_STATUS_eqb (status node) ENTERING_RESCUE_MODE) in
  let poweroff_timeout := timedelta_total_seconds 0 1 in
  let poweroff_timeout :=
    if NODE_STATUS_eqb (status node) DISK_ERASING
    then timedelta_total_seconds 7 0
    else poweroff_timeout in
  _compose_cloud_init_preseed node token metadata_url base_url
    poweroff poweroff_timeout (Some "test ! -e /tmp/block-poweroff").

Definition compose_curtin_preseed (node : Node) (token : Token)
    (base_url : string) : result string :=
  let metadata_url := absolute_reverse w "curtin-metadata" [] base_url in
  _compose_cloud_init_preseed node token metadata_url base_url
    false 3600%Z None.

Definition _get_metadata_url (preseed_type : PRESEED_TYPE)
    (base_url : string) : string :=
  if PRESEED_TYPE_eqb preseed_type CURTIN
  then absolute_reverse w "curtin-metadata" [] base_url
  else absolute_reverse w "metadata" [] base_url.

(** The call of the OS-specific provider, recorded in the log. *)
Definition call_get_preseed_data (preseed_type : PRESEED_TYPE)
    (node : Node) (token : Token) (metadata_url : string) : Comp string :=
  fun log =>
    (get_preseed_data w preseed_type node token metadata_url,
     (log ++ [ {| call_kind := preseed_type; call_node := node;
                  call_token := token;
                  call_metadata_url := metadata_url |} ])%list).

Definition compose_preseed (preseed_type : PRESEED_TYPE) (node : Node)
  : Comp string :=
  let token := get_token_for_node w node in
  let rack_controller := get_boot_rack_controller node in
  let base_url := rack_url rack_controller in
  if PRESEED_TYPE_eqb preseed_type COMMISSIONING then
    lift (compose_commissioning_preseed node token base_url)
  else
    let metadata_url := _get_metadata_url preseed_type base_url in
    try_except
      (call_get_preseed_data preseed_type node token metadata_url)
      (fun e =>
         match e with
         | NotImplementedError =>
             if PRESEED_TYPE_eqb preseed_type CURTIN
             then lift (compose_curtin_preseed node token base_url)
             else lift (compose_cloud_init_preseed node token base_url)
         | NoSuchOperatingSystem => raise NoSuchOperatingSystem
         | NoConnectionsAvailable => raise NoConnectionsAvailable
         | other => raise other
         end).

End Composer.

(** ** The spec's reading of the proxy rule, and sample data *)

(** A configured proxy value that is empty or made of whitespace only. *)
Definition blank (s : string) : bool := all_chars is_space_char s.

(** Proxy resolution as the design describes it. *)
Definition ProxyResolver (enabled : bool) (configured : option string)
    (rack_host : string) : option string :=
  if enabled then
    match configured with
    | Some p =>
        if blank p then Some ("http://" ++ rack_host ++ ":8000/") else Some p
    | None => Some ("http://" ++ rack_host ++ ":8000/")
    end
  else None.

(** What the debconf escaping does to one character. *)
Definition escape_char (c : ascii) : string :=
  if Ascii.eqb c backslash then String backslash (String backslash "")
  else if Ascii.eqb c newline then String backslash "n"
  else String c "".

Fixpoint flat_map_chars (f : ascii -> string) (s : string) : string :=
  match s with
  | EmptyString => EmptyString
  | String c s' => f c ++ flat_map_chars f s'
  end.

(** A flow-style dump, used as [yaml.safe_dump] in the sample world. *)
Fixpoint flow_dump (y : yaml) : string :=
  match y with
  | YStr s => s
  | YBool b => if b then "true" else "false"
  | YInt z => str_of_int z
  | YSeq items => "[" ++ join ", " (map flow_dump items) ++ "]"
  | YMap items =>
      "{"
      ++ join ", " (map (fun kv => fst kv ++ ": " ++ flow_dump (snd kv)) items)
      ++ "}"
  end.

Definition sample_repo (id : Z) (name : string) (dists comps : list string)
  : PackageRepository :=
  {| repo_id := id; repo_name := name;
     repo_url := "http://mirror.example/ubuntu"; repo_key := "";
     repo_components := comps; repo_distributions := dists |}.

Definition sample_archive : Archive :=
  {| archive_url := "http://archive.example/ubuntu";
     archive_key := "KEY"; archive_disabled_pockets := [] |}.

Definition sample_world (repos : list PackageRepository)
    (delegate : result string) : World :=
  {| enable_http_proxy := true;
     http_proxy := Some " ";
     get_default_archive := fun _ => Some sample_archive;
     get_additional_repositories := fun _ => repos;
     get_main_archive := sample_archive;
     get_ports_archive := sample_archive;
     get_maas_facing_server_host := fun _ => "rack.example";
     absolute_reverse := fun name args base => base ++ "/" ++ name;
     get_token_for_node :=
       fun _ => {| consumer_key := "ck"; token_key := "tk";
                   token_secret := "ts" |};
     get_preseed_data := fun _ _ _ _ => delegate;
     safe_dump := flow_dump;
     urlencode :=
       fun items => join "&" (map (fun kv => fst kv ++ "=" ++ snd kv) items)
  |}.

Definition sample_node (st : NODE_STATUS) : Node :=
  {| system_id := "abc123"; status := st; distro_series := "xenial";
     split_arch := ("amd64", "generic");
     get_boot_rack_controller := {| rack_url := "http://rack.example" |} |}.



(** The display-name part of a sanitized name: what remains of the name in
    front of the underscore and the identifier. *)
Definition cleaned_display_name (s : string) : string :=
  lower (replace_char " " "_"
           (lstrip (translate_delete special_characters s))).

(** What lower-casing after the replacement of spaces does to one
    character. *)
Definition clean_char (c : ascii) : ascii :=
  lower_char (if Ascii.eqb c " " then "_"%char else c).

Definition starts_clean (s : string) : bool :=
  match s with
  | EmptyString => true
  | String c _ => negb (is_space_char c)
  end.


(** The entry the loop of [get_archive_config] stores for a repository. *)
Definition repository_entry (node : Node) (repo : PackageRepository)
  : yaml :=
  if truthy (repo_key repo) then
    YMap [("key", YStr (repo_key repo));
          ("source", YStr (repository_source node repo))]
  else YMap [("source", YStr (repository_source node repo))].

(** The additional sources a dict [archives['apt']] holds so far. *)
Definition sources_of (apt : dict) : dict :=
  match Dict.get "sources" apt with
  | Some (YMap sources) => sources
  | _ => []
  end.

(** One iteration of the loop, seen on the sources map alone. *)
Definition add_source (node : Node) (sources : dict)
    (repo : PackageRepository) : dict :=
  Dict.set (make_clean_repo_name repo) (repository_entry node repo) sources.

(** The dict [archives['apt']] before the loop, the default archive being
    known. *)
Definition apt_head (w : World) (node : Node) (preserve_sources : bool)
    (archive : Archive) : dict :=
  let apt :=
    [ ("preserve_sources_list", YBool preserve_sources);
      ("primary",
        YSeq [YMap [("arches", YSeq [YStr "default"]);
                    ("uri", YStr (archive_url archive))]]);
      ("security",
        YSeq [YMap [("arches", YSeq [YStr "default"]);
                    ("uri", YStr (archive_url archive))]]) ] in
  let apt :=
    if nonempty (archive_disabled_pockets archive)
    then Dict.set "disable_suites"
           (YSeq (map YStr (archive_disabled_pockets archive))) apt
    else apt in
  let apt :=
    match get_apt_proxy_for_node w node with
    | Some p => if truthy p then Dict.set "proxy" (YStr p) apt else apt
    | None => apt
    end in
  if truthy (archive_key archive)
  then Dict.set "sources"
         (YMap [("archive_key",
                  YMap [("key", YStr (archive_key archive))])]) apt
  else apt.

(** The dict [archives['apt']] after the loop. *)
Definition apt_block (w : World) (node : Node) (preserve_sources : bool)
    (archive : Archive) : dict :=
  fold_left (add_repository node)
    (get_additional_repositories w (fst (split_arch node)))
    (apt_head w node preserve_sources archive).


(** A reader of debconf-escaped values: a backslash followed by n is a
    newline, a backslash followed by any other character is that
    character.  It is not part of the composer; it states that the escaping
    loses nothing. *)
Fixpoint debconf_unescape (s : string) : string :=
  match s with
  | EmptyString => EmptyString
  | String c s' =>
      if Ascii.eqb c backslash then
        match s' with
        | EmptyString => String c EmptyString
        | String d s'' =>
            if Ascii.eqb d "n" then String newline (debconf_unescape s'')
            else String d (debconf_unescape s'')
        end
      else String c (debconf_unescape s')
  end.

Fixpoint count_char (c : ascii) (s : string) : nat :=
  match s with
  | EmptyString => 0
  | String d s' => (if Ascii.eqb d c then 1 else 0) + count_char c s'
  end.

Definition sample_repo_at (id : Z) (name url key : string)
    (dists comps : list string) : PackageRepository :=
  {| repo_id := id; repo_name := name; repo_url := url; repo_key := key;
     repo_components := comps; repo_distributions := dists |}.

(** A default archive without signing key, in a world without proxy and
    without additional repositories. *)
Definition bare_archive : Archive :=
  {| archive_url := "http://archive.example/"; archive_key := "";
     archive_disabled_pockets := ["backports"] |}.

Definition bare_world : World :=
  {| enable_http_proxy := false;
     http_proxy := None;
     get_default_archive := fun _ => Some bare_archive;
     get_additional_repositories := fun _ => [];
     get_main_archive := bare_archive;
     get_ports_archive := bare_archive;
     get_maas_facing_server_host := fun _ => "rack.example";
     absolute_reverse := fun name args base => base ++ "/" ++ name;
     get_token_for_node :=
       fun _ => {| consumer_key := "ck"; token_key := "tk";
                   token_secret := "ts" |};
     get_preseed_data := fun _ _ _ _ => Raise NotImplementedError;
     safe_dump := flow_dump;
     urlencode :=
       fun items => join "&" (map (fun kv => fst kv ++ "=" ++ snd kv) items)
  |}.

(** A world in which no architecture has a default archive. *)
Definition no_archive_world : World :=
  {| enable_http_proxy := false;
     http_proxy := None;
     get_default_archive := fun _ => None;
     get_additional_repositories := fun _ => [];
     get_main_archive := bare_archive;
     get_ports_archive := bare_archive;
     get_maas_facing_server_host := fun _ => "rack.example";
     absolute_reverse := fun name args base => base ++ "/" ++ name;
     get_token_for_node :=
       fun _ => {| consumer_key := "ck"; token_key := "tk";
                   token_secret := "ts" |};
     get_preseed_data := fun _ _ _ _ => Raise NotImplementedError;
     safe_dump := flow_dump;
     urlencode :=
       fun items => join "&" (map (fun kv => fst kv ++ "=" ++ snd kv) items)
  |}.

(** ** The worker token (maasserver/regiondservices/temporal_worker.py) *)

Module TemporalWorker.

Section GetToken.

Variables User AuthToken : Type.

(** The collaborators of [get_token]: the worker user, the tokens a user
    has, in the order [get_auth_tokens] lists them, and the creation of a
    token. *)
Variable get_worker_user : User.
Variable get_auth_tokens : User -> list AuthToken.
Variable create_auth_token : User -> AuthToken.

(** [get_token] returns the token together with the users for whom
    [create_auth_token] was called.  The loop returns at its first
    iteration; its [else] branch runs when there is nothing to iterate
    on. *)
Definition get_token : AuthToken * list User :=
  let user := get_worker_user in
  match rev (get_auth_tokens user) with
  | token :: _ => (token, [])
  | [] => (create_auth_token user, [user])
  end.

End GetToken.

End TemporalWorker.

(** ** Sample tags (maasserver/testing/sampledata/tag.py) *)

Module SampleData.

Fixpoint zeros (n : nat) : string :=
  match n with
  | O => EmptyString
  | S n' => String "0" (zeros n')
  end.

(** [digits.zfill(width)] for a string of digits *)
Definition zfill (width : nat) (digits : string) : string :=
  zeros (width - String.length digits) ++ digits.

(** [f"{n:03}"] for an [int]: zero padding to three characters, the sign
    first. *)
Definition format_03 (n : Z) : string :=
  if (n <? 0)%Z then "-" ++ zfill 2 (str_of_int (- n))
  else zfill 3 (str_of_int n).

Record Tag := {
  tag_name : string;
  tag_created : Z;
  tag_updated : Z
}.

Section MakeTags.

(** [range_one] is not among the sources and [datetime.utcnow] is the
    clock: the first is the list it yields for a count, the second the
    time read at the i-th iteration. *)
Variable range_one : Z -> list Z.
Variable utcnow : nat -> Z.

Fixpoint make_tags_from (i : nat) (prefix : string) (ns : list Z)
  : list Tag :=
  match ns with
  | [] => []
  | n :: ns' =>
      let now := utcnow i in
      {| tag_name := prefix ++ format_03 n;
         tag_created := now; tag_updated := now |}
      :: make_tags_from (S i) prefix ns'
  end.

(** The tags [make_tags] hands to [Tag.objects.bulk_create]. *)
Definition make_tags (count : Z) (prefix : string) : list Tag :=
  make_tags_from 0 prefix (range_one count).

End MakeTags.

(** The number a padded string of digits stands for. *)
Definition digits_value (s : string) : option N :=
  match NilEmpty.uint_of_string s with
  | Some d => Some (N.of_uint d)
  | None => None
  end.

End SampleData.

(** * Properties *)

(** ** Characters and strings *)

Ltac by_cases_on_char c :=
  destruct c as [[] [] [] [] [] [] [] []]; try reflexivity; try discriminate.

Lemma dec_char_not_space (c : ascii) :
  is_dec_char c = true -> is_space_char c = false.
Proof. by_cases_on_char c. Qed.

Lemma dec_char_not_upper (c : ascii) :
  is_dec_char c = true -> is_upper_char c = false.
Proof. by_cases_on_char c. Qed.

Lemma dec_char_not_underscore (c : ascii) :
  is_dec_char c = true -> Ascii.eqb c "_" = false.
Proof. by_cases_on_char c. Qed.


Lemma append_nil_r (s : string) : s ++ "" = s.
Proof. induction s as [|c s IH]; simpl; [reflexivity | now rewrite IH]. Qed.

Lemma append_assoc (a b c : string) : (a ++ b) ++ c = a ++ (b ++ c).
Proof. induction a as [|x a IH]; simpl; [reflexivity | now rewrite IH]. Qed.

Lemma append_cancel_l (a x y : string) : a ++ x = a ++ y -> x = y.
Proof.
  induction a as [|c a IH]; simpl; intros H; [exact H|].
  injection H as H. now apply IH.
Qed.

Lemma all_chars_app (p : ascii -> bool) (a b : string) :
  all_chars p (a ++ b) = all_chars p a && all_chars p b.
Proof.
  induction a as [|c a IH]; simpl; [reflexivity|].
  now rewrite IH, andb_assoc.
Qed.

Lemma all_chars_impl (p q : ascii -> bool) (s : string) :
  (forall c, p c = true -> q c = true) ->
  all_chars p s = true -> all_chars q s = true.
Proof.
  intros Hpq. induction s as [|c s IH]; simpl; [reflexivity|].
  intros H. apply andb_true_iff in H as [Hc Hs].
  now rewrite (Hpq _ Hc), IH.
Qed.

Lemma map_chars_app (f : ascii -> ascii) (a b : string) :
  map_chars f (a ++ b) = map_chars f a ++ map_chars f b.
Proof. induction a as [|c a IH]; simpl; [reflexivity | now rewrite IH]. Qed.

Lemma map_chars_id (f : ascii -> ascii) (s : string) :
  all_chars (fun c => Ascii.eqb (f c) c) s = true -> map_chars f s = s.
Proof.
  induction s as [|c s IH]; simpl; [reflexivity|].
  intros H. apply andb_true_iff in H as [Hc Hs].
  apply Ascii.eqb_eq in Hc. now rewrite Hc, IH.
Qed.


Lemma replace_char_app (old : ascii) (new a b : string) :
  replace_char old new (a ++ b)
  = replace_char old new a ++ replace_char old new b.
Proof.
  induction a as [|c a IH]; simpl; [reflexivity|].
  destruct (Ascii.eqb c old); rewrite IH; [|reflexivity].
  now rewrite append_assoc.
Qed.

Lemma replace_char_id (old : ascii) (new s : string) :
  all_chars (fun c => negb (Ascii.eqb c old)) s = true ->
  replace_char old new s = s.
Proof.
  induction s as [|c s IH]; simpl; [reflexivity|].
  intros H. apply andb_true_iff in H as [Hc Hs].
  apply negb_true_iff in Hc. now rewrite Hc, IH.
Qed.

Lemma lstrip_app_nonspace (p : string) (c : ascii) (q : string) :
  is_space_char c = false ->
  lstrip (p ++ String c q) = lstrip p ++ String c q.
Proof.
  intros Hc. induction p as [|x p IH]; simpl.
  - now rewrite Hc.
  - destruct (is_space_char x); [exact IH | reflexivity].
Qed.


Lemma rstrip_id (s : string) :
  all_chars (fun c => negb (is_space_char c)) s = true -> rstrip s = s.
Proof.
  induction s as [|c s IH]; simpl; [reflexivity|].
  intros H. apply andb_true_iff in H as [Hc Hs].
  apply negb_true_iff in Hc. rewrite (IH Hs), Hc.
  now destruct s.
Qed.

Lemma rstrip_app (a b : string) :
  rstrip b <> "" -> rstrip (a ++ b) = a ++ rstrip b.
Proof.
  intros Hb. induction a as [|c a IH]; simpl; [reflexivity|].
  rewrite IH. destruct (a ++ rstrip b) eqn:E; [|reflexivity].
  destruct a; simpl in E; [contradiction | discriminate].
Qed.

Lemma last_char_app (a b : string) :
  b <> "" -> last_char (a ++ b) = last_char b.
Proof.
  intros Hb. induction a as [|c a IH]; simpl; [reflexivity|].
  rewrite IH. destruct b as [|d b]; [contradiction|].
  simpl. now destruct (last_char b).
Qed.

Lemma last_char_all (p : ascii -> bool) (s : string) (c : ascii) :
  all_chars p s = true -> last_char s = Some c -> p c = true.
Proof.
  induction s as [|d s IH]; simpl; [discriminate|].
  intros H. apply andb_true_iff in H as [Hd Hs].
  destruct (last_char s) as [e|].
  - intros [= <-]. now apply IH.
  - now intros [= <-].
Qed.

Lemma endswith_app (a b : string) : endswith b (a ++ b) = true.
Proof.
  induction a as [|c a IH]; simpl.
  - destruct b; cbn [endswith]; now rewrite String.eqb_refl.
  - rewrite IH. apply orb_true_r.
Qed.

(** ** Rendered integers *)

Lemma string_of_uint_chars (d : Decimal.uint) :
  all_chars is_dec_char (NilEmpty.string_of_uint d) = true.
Proof. induction d; simpl; try rewrite IHd; reflexivity. Qed.

Lemma str_of_int_chars (z : Z) : all_chars is_dec_char (str_of_int z) = true.
Proof.
  unfold str_of_int. destruct (Z.to_int z); simpl;
    now rewrite string_of_uint_chars.
Qed.

Lemma str_of_int_nonempty (z : Z) : str_of_int z <> "".
Proof.
  unfold str_of_int. destruct z as [|p|p]; simpl; try discriminate.
  pose proof (Unsigned.to_uint_nonnil p) as Hp.
  destruct (Pos.to_uint p); simpl; try discriminate. now elim Hp.
Qed.

Lemma str_of_int_inj (m n : Z) : str_of_int m = str_of_int n -> m = n.
Proof.
  unfold str_of_int. intros H. apply DecimalZ.to_int_inj.
  assert (Some (Z.to_int m) = Some (Z.to_int n)) as E.
  { rewrite <- !NilEmpty.isi. now rewrite H. }
  now injection E.
Qed.

Lemma str_of_int_no_space (z : Z) :
  all_chars (fun c => negb (is_space_char c)) (str_of_int z) = true.
Proof.
  apply (all_chars_impl is_dec_char); [|apply str_of_int_chars].
  intros c Hc. now rewrite (dec_char_not_space c Hc).
Qed.

(** ** Name sanitization *)

Lemma dec_char_not_blank (c : ascii) :
  is_dec_char c = true -> negb (Ascii.eqb c " ") = true.
Proof. by_cases_on_char c. Qed.

Lemma dec_char_lower (c : ascii) :
  is_dec_char c = true -> Ascii.eqb (lower_char c) c = true.
Proof. by_cases_on_char c. Qed.

Lemma suffix_no_space (z : Z) :
  all_chars (fun c => negb (is_space_char c)) (String "_" (str_of_int z))
  = true.
Proof. simpl. apply str_of_int_no_space. Qed.

Lemma strip_name_suffix (t : string) (z : Z) :
  strip (t ++ "_" ++ str_of_int z) = lstrip t ++ "_" ++ str_of_int z.
Proof.
  unfold strip. simpl.
  rewrite lstrip_app_nonspace by reflexivity.
  rewrite rstrip_app; rewrite (rstrip_id _ (suffix_no_space z));
    [reflexivity | discriminate].
Qed.

(** The sanitized name is the cleaned display name followed by an
    underscore and the identifier. *)
Lemma make_clean_repo_name_eq (repo : PackageRepository) :
  make_clean_repo_name repo
  = cleaned_display_name (repo_name repo)
      ++ "_" ++ str_of_int (repo_id repo).
Proof.
  unfold make_clean_repo_name, cleaned_display_name, lower.
  rewrite strip_name_suffix, replace_char_app, map_chars_app.
  f_equal.
  rewrite replace_char_id.
  - apply map_chars_id. simpl.
    apply (all_chars_impl is_dec_char); [|apply str_of_int_chars].
    apply dec_char_lower.
  - simpl. apply (all_chars_impl is_dec_char); [|apply str_of_int_chars].
    apply dec_char_not_blank.
Qed.

Lemma make_clean_repo_name_last (repo : PackageRepository) :
  exists c, last_char (make_clean_repo_name repo) = Some c
            /\ is_dec_char c = true.
Proof.
  rewrite make_clean_repo_name_eq.
  rewrite last_char_app by discriminate.
  simpl. pose proof (str_of_int_nonempty (repo_id repo)) as Hne.
  pose proof (str_of_int_chars (repo_id repo)) as Hall.
  destruct (last_char (str_of_int (repo_id repo))) as [c|] eqn:E.
  - exists c. split; [reflexivity|]. exact (last_char_all _ _ _ Hall E).
  - destruct (str_of_int (repo_id repo)) as [|d s]; [now elim Hne|].
    simpl in E. destruct (last_char s); discriminate.
Qed.

(** A sanitized name differs from every string that does not end with a
    character of a rendered integer. *)
Lemma make_clean_repo_name_neq (repo : PackageRepository) (k : string) :
  match last_char k with
  | Some c => is_dec_char c = false
  | None => True
  end ->
  make_clean_repo_name repo <> k.
Proof.
  intros Hk E. destruct (make_clean_repo_name_last repo) as (c & Hc & Hd).
  rewrite E in Hc. rewrite Hc in Hk. congruence.
Qed.

Lemma underscore_not_dec (a b : string) :
  all_chars is_dec_char (a ++ String "_" b) = false.
Proof.
  rewrite all_chars_app. simpl. apply andb_false_r.
Qed.

Lemma suffix_after_underscore (p1 p2 d1 d2 : string) :
  all_chars is_dec_char d1 = true ->
  all_chars is_dec_char d2 = true ->
  p1 ++ String "_" d1 = p2 ++ String "_" d2 -> d1 = d2.
Proof.
  intros H1 H2. revert p2.
  induction p1 as [|c p1 IH]; intros [|c2 p2]; simpl; intros E.
  - now injection E.
  - injection E as _ E. rewrite E, underscore_not_dec in H1. discriminate.
  - injection E as _ E. rewrite <- E, underscore_not_dec in H2. discriminate.
  - injection E as _ E. now apply (IH p2).
Qed.

(** Two repositories with the same sanitized name have the same
    identifier, whatever their display names. *)
Lemma make_clean_repo_name_id (r1 r2 : PackageRepository) :
  make_clean_repo_name r1 = make_clean_repo_name r2 ->
  repo_id r1 = repo_id r2.
Proof.
  rewrite !make_clean_repo_name_eq. simpl. intros E.
  apply str_of_int_inj.
  exact (suffix_after_underscore _ _ _ _
           (str_of_int_chars _) (str_of_int_chars _) E).
Qed.

(** C7: two repositories with the same display name and different numeric
    identifiers get different sanitized names. *)
Theorem make_clean_repo_name_injective (r1 r2 : PackageRepository) :
  repo_name r1 = repo_name r2 ->
  repo_id r1 <> repo_id r2 ->
  make_clean_repo_name r1 <> make_clean_repo_name r2.
Proof.
  intros Hname Hid E. apply Hid.
  rewrite !make_clean_repo_name_eq, Hname in E.
  apply append_cancel_l in E. simpl in E.
  injection E as E. now apply str_of_int_inj.
Qed.

Lemma make_clean_repo_name_injective_witness :
  repo_name (sample_repo 1 "My Repo" [] [])
  = repo_name (sample_repo 2 "My Repo" [] [])
  /\ repo_id (sample_repo 1 "My Repo" [] [])
     <> repo_id (sample_repo 2 "My Repo" [] [])
  /\ make_clean_repo_name (sample_repo 1 "My Repo" [] [])
     <> make_clean_repo_name (sample_repo 2 "My Repo" [] []).
Proof.
  split; [reflexivity|]. split; [discriminate|].
  apply make_clean_repo_name_injective; [reflexivity | discriminate].
Defined.






Lemma cleaned_display_name_map (s : string) :
  cleaned_display_name s
  = map_chars clean_char (lstrip (translate_delete special_characters s)).
Proof.
  unfold cleaned_display_name, lower.
  induction (lstrip (translate_delete special_characters s)) as [|c u IH];
    simpl; [reflexivity|].
  unfold clean_char at 1.
  destruct (Ascii.eqb c " "); simpl; now rewrite IH.
Qed.

Lemma all_chars_map (q : ascii -> bool) (f : ascii -> ascii) (s : string) :
  all_chars q (map_chars f s) = all_chars (fun c => q (f c)) s.
Proof. induction s as [|c s IH]; simpl; [reflexivity | now rewrite IH]. Qed.


Lemma all_chars_filter (q : ascii -> bool) (s : string) :
  all_chars q (filter_chars q s) = true.
Proof.
  induction s as [|c s IH]; simpl; [reflexivity|].
  destruct (q c) eqn:E; simpl; [now rewrite E, IH | exact IH].
Qed.

Lemma all_chars_lstrip (q : ascii -> bool) (s : string) :
  all_chars q s = true -> all_chars q (lstrip s) = true.
Proof.
  induction s as [|c s IH]; simpl; [reflexivity|].
  intros H. destruct (is_space_char c); [|exact H].
  apply andb_true_iff in H as [_ H]. now apply IH.
Qed.

Lemma lstrip_starts_clean (s : string) : starts_clean (lstrip s) = true.
Proof.
  induction s as [|c s IH]; simpl; [reflexivity|].
  destruct (is_space_char c) eqn:E; [exact IH|]. simpl. now rewrite E.
Qed.



Lemma clean_char_keeps_nonspace (c : ascii) :
  negb (is_space_char c) = true ->
  negb (is_space_char (clean_char c)) = true.
Proof. by_cases_on_char c. Qed.







(** ** Debconf escaping *)

Lemma flat_map_chars_app (f : ascii -> string) (a b : string) :
  flat_map_chars f (a ++ b) = flat_map_chars f a ++ flat_map_chars f b.
Proof.
  induction a as [|c a IH]; simpl; [reflexivity|].
  now rewrite IH, append_assoc.
Qed.

Lemma debconf_escape_chars (s : string) :
  debconf_escape s = flat_map_chars escape_char s.
Proof.
  unfold debconf_escape. induction s as [|c s IH]; simpl; [reflexivity|].
  unfold escape_char at 1.
  destruct (Ascii.eqb_spec c backslash) as [->|Hb].
  - simpl. now rewrite IH.
  - simpl. destruct (Ascii.eqb_spec c newline) as [->|Hn]; simpl;
      now rewrite IH.
Qed.

Lemma escape_ordinary (s : string) :
  all_chars (fun c => negb (Ascii.eqb c backslash)
                      && negb (Ascii.eqb c newline)) s = true ->
  flat_map_chars escape_char s = s.
Proof.
  induction s as [|c s IH]; simpl; [reflexivity|].
  intros H. apply andb_true_iff in H as [Hc Hs].
  apply andb_true_iff in Hc as [Hb Hn].
  apply negb_true_iff in Hb, Hn.
  unfold escape_char at 1. rewrite Hb, Hn. simpl. now rewrite (IH Hs).
Qed.

(** C9: the escaping doubles every backslash and then turns every newline
    into backslash-n, one character at a time and leaving every other
    character as it is; a document with one backslash and one newline among
    ordinary characters gets exactly these two replacements. *)
Theorem debconf_escape_correct (s pre mid post : string) :
  all_chars (fun c => negb (Ascii.eqb c backslash)
                      && negb (Ascii.eqb c newline)) pre = true ->
  all_chars (fun c => negb (Ascii.eqb c backslash)
                      && negb (Ascii.eqb c newline)) mid = true ->
  all_chars (fun c => negb (Ascii.eqb c backslash)
                      && negb (Ascii.eqb c newline)) post = true ->
  debconf_escape s = flat_map_chars escape_char s
  /\ debconf_escape pre = pre
  /\ debconf_escape (pre ++ String backslash (mid ++ String newline post))
     = pre ++ String backslash (String backslash
                (mid ++ String backslash (String "n" post))).
Proof.
  intros Hpre Hmid Hpost. rewrite !debconf_escape_chars.
  split; [reflexivity|]. split; [now apply escape_ordinary|].
  rewrite flat_map_chars_app. simpl.
  rewrite flat_map_chars_app. simpl.
  now rewrite !escape_ordinary.
Qed.

Lemma debconf_escape_correct_witness :
  debconf_escape ("key: C:" ++ String backslash ("dir" ++ String newline "x"))
  = "key: C:" ++ String backslash (String backslash
                   ("dir" ++ String backslash (String "n" "x"))).
Proof.
  apply (debconf_escape_correct "" "key: C:" "dir" "x"); reflexivity.
Defined.

(** ** Proxy resolution *)

Lemma usable_proxy_not_blank (p : string) :
  Nat.ltb 0 (String.length p) && negb (isspace p) = negb (blank p).
Proof. destruct p; reflexivity. Qed.

Lemma blank_empty_or_space (s : string) :
  blank s = is_empty s || isspace s.
Proof. destruct s; reflexivity. Qed.

(** C5: no proxy when the flag is off; with the flag on, the configured
    value unchanged when it is neither empty nor all whitespace, and the
    URL http://<rack-host>:8000/ otherwise. *)
Theorem get_apt_proxy_for_node_resolves (w : World) (node : Node) :
  get_apt_proxy_for_node w node
  = ProxyResolver (enable_http_proxy w) (http_proxy w)
      (get_maas_facing_server_host w (get_boot_rack_controller node)).
Proof.
  unfold get_apt_proxy_for_node, ProxyResolver.
  destruct (enable_http_proxy w); [|reflexivity].
  destruct (http_proxy w) as [p|]; [|reflexivity].
  rewrite usable_proxy_not_blank. now destruct (blank p).
Qed.

Lemma get_apt_proxy_for_node_truthy (w : World) (node : Node) (p : string) :
  get_apt_proxy_for_node w node = Some p -> truthy p = true.
Proof.
  unfold get_apt_proxy_for_node.
  destruct (enable_http_proxy w); [|discriminate].
  destruct (http_proxy w) as [q|].
  - match goal with
    | |- (if ?b then _ else _) = _ -> _ => destruct b eqn:E
    end; intros [= <-]; [|reflexivity].
    now destruct q.
  - now intros [= <-].
Qed.

(** ** Dicts *)

Lemma get_set_eq (k : string) (v : yaml) (d : dict) :
  Dict.get k (Dict.set k v d) = Some v.
Proof.
  induction d as [|[k' v'] d IH]; simpl.
  - now rewrite String.eqb_refl.
  - destruct (String.eqb k k') eqn:E; simpl; rewrite ?E, ?String.eqb_refl;
      [reflexivity | exact IH].
Qed.

Lemma get_set_ne (k k' : string) (v : yaml) (d : dict) :
  String.eqb k k' = false ->
  Dict.get k (Dict.set k' v d) = Dict.get k d.
Proof.
  intros Hne. induction d as [|[k0 v0] d IH]; simpl.
  - now rewrite Hne.
  - destruct (String.eqb k' k0) eqn:E; simpl.
    + apply String.eqb_eq in E. subst k0. now rewrite Hne.
    + now rewrite IH.
Qed.

Lemma get_set_in_ne (k k1 k2 : string) (v : yaml) (d : dict) :
  String.eqb k k1 = false ->
  Dict.get k (Dict.set_in k1 k2 v d) = Dict.get k d.
Proof.
  intros Hne. unfold Dict.set_in.
  destruct (Dict.get k1 d) as [[]|]; try reflexivity.
  now apply get_set_ne.
Qed.

Lemma add_repository_eq (node : Node) (apt : dict)
    (repo : PackageRepository) :
  add_repository node apt repo
  = Dict.set_in "sources" (make_clean_repo_name repo)
      (repository_entry node repo)
      (if negb (Dict.has "sources" apt)
       then Dict.set "sources" (YMap []) apt else apt).
Proof.
  unfold add_repository, repository_entry.
  now destruct (truthy (repo_key repo)).
Qed.

Lemma add_repository_get_ne (node : Node) (apt : dict)
    (repo : PackageRepository) (k : string) :
  String.eqb k "sources" = false ->
  Dict.get k (add_repository node apt repo) = Dict.get k apt.
Proof.
  intros Hne. rewrite add_repository_eq, get_set_in_ne by exact Hne.
  destruct (negb (Dict.has "sources" apt)); [|reflexivity].
  now apply get_set_ne.
Qed.

Lemma add_repository_sources (node : Node) (apt : dict)
    (repo : PackageRepository) :
  match Dict.get "sources" apt with
  | None | Some (YMap _) => True
  | Some _ => False
  end ->
  Dict.get "sources" (add_repository node apt repo)
  = Some (YMap (add_source node (sources_of apt) repo)).
Proof.
  intros Hwf. rewrite add_repository_eq.
  unfold Dict.has, Dict.set_in, sources_of, add_source.
  destruct (Dict.get "sources" apt) as [[| | | |sources]|] eqn:E;
    try contradiction; simpl.
  - rewrite E. apply get_set_eq.
  - rewrite get_set_eq. apply get_set_eq.
Qed.

Lemma fold_get_ne (node : Node) (repos : list PackageRepository)
    (apt : dict) (k : string) :
  String.eqb k "sources" = false ->
  Dict.get k (fold_left (add_repository node) repos apt) = Dict.get k apt.
Proof.
  intros Hne. revert apt.
  induction repos as [|r repos IH]; intros apt; simpl; [reflexivity|].
  now rewrite IH, add_repository_get_ne.
Qed.

Lemma fold_sources_some (node : Node) (repos : list PackageRepository)
    (apt sources : dict) :
  Dict.get "sources" apt = Some (YMap sources) ->
  Dict.get "sources" (fold_left (add_repository node) repos apt)
  = Some (YMap (fold_left (add_source node) repos sources)).
Proof.
  revert apt sources.
  induction repos as [|r repos IH]; intros apt sources H; simpl; [exact H|].
  apply IH. rewrite add_repository_sources by now rewrite H.
  unfold sources_of. now rewrite H.
Qed.

Lemma fold_sources_none (node : Node) (repos : list PackageRepository)
    (apt : dict) :
  Dict.get "sources" apt = None ->
  repos <> [] ->
  Dict.get "sources" (fold_left (add_repository node) repos apt)
  = Some (YMap (fold_left (add_source node) repos [])).
Proof.
  intros H Hne. destruct repos as [|r repos]; [now elim Hne|]. simpl.
  apply fold_sources_some.
  rewrite add_repository_sources by now rewrite H.
  unfold sources_of. now rewrite H.
Qed.

Lemma fold_add_source_other (node : Node) (repos : list PackageRepository)
    (sources : dict) (k : string) :
  (forall repo, make_clean_repo_name repo <> k) ->
  Dict.get k (fold_left (add_source node) repos sources)
  = Dict.get k sources.
Proof.
  intros Hk. revert sources.
  induction repos as [|r repos IH]; intros sources; simpl; [reflexivity|].
  rewrite IH. unfold add_source. apply get_set_ne.
  apply String.eqb_neq. intros E. now apply (Hk r).
Qed.

Lemma fold_add_source_entry (node : Node) (repo : PackageRepository)
    (repos : list PackageRepository) (sources : dict) :
  (forall r, In r repos -> repo_id r = repo_id repo -> r = repo) ->
  In repo repos
  \/ Dict.get (make_clean_repo_name repo) sources
     = Some (repository_entry node repo) ->
  Dict.get (make_clean_repo_name repo)
    (fold_left (add_source node) repos sources)
  = Some (repository_entry node repo).
Proof.
  revert sources.
  induction repos as [|r repos IH]; intros sources Huniq Hin; simpl.
  - destruct Hin as [[]|H]. exact H.
  - apply IH; [intros r' Hr'; apply Huniq; now right|].
    unfold add_source at 1.
    destruct Hin as [[->|Hin]|Hget].
    + right. apply get_set_eq.
    + now left.
    + right.
      destruct (String.eqb (make_clean_repo_name repo)
                  (make_clean_repo_name r)) eqn:E.
      * apply String.eqb_eq in E.
        assert (r = repo) as ->.
        { apply Huniq; [now left|]. symmetry.
          now apply make_clean_repo_name_id. }
        apply get_set_eq.
      * now rewrite get_set_ne.
Qed.

Lemma get_archive_config_some (w : World) (node : Node)
    (preserve_sources : bool) (archive : Archive) :
  get_default_archive w (fst (split_arch node)) = Some archive ->
  get_archive_config w node preserve_sources
  = Ok [("apt", YMap (apt_block w node preserve_sources archive))].
Proof.
  intros H. unfold get_archive_config. rewrite H. reflexivity.
Qed.

Lemma apt_head_sources (w : World) (node : Node) (preserve_sources : bool)
    (archive : Archive) :
  Dict.get "sources" (apt_head w node preserve_sources archive)
  = if truthy (archive_key archive)
    then Some (YMap [("archive_key",
                       YMap [("key", YStr (archive_key archive))])])
    else None.
Proof.
  unfold apt_head.
  destruct (truthy (archive_key archive)); [apply get_set_eq|].
  destruct (get_apt_proxy_for_node w node) as [p|];
    [destruct (truthy p)|];
    destruct (nonempty (archive_disabled_pockets archive));
    rewrite ?get_set_ne by reflexivity; reflexivity.
Qed.

Lemma apt_head_preserve (w : World) (node : Node) (preserve_sources : bool)
    (archive : Archive) :
  Dict.get "preserve_sources_list"
    (apt_head w node preserve_sources archive)
  = Some (YBool preserve_sources).
Proof.
  unfold apt_head.
  destruct (truthy (archive_key archive));
    destruct (get_apt_proxy_for_node w node) as [p|];
    try destruct (truthy p);
    destruct (nonempty (archive_disabled_pockets archive));
    rewrite ?get_set_ne by reflexivity; reflexivity.
Qed.

Lemma apt_head_fields (w : World) (node : Node) (preserve_sources : bool)
    (archive : Archive) :
  Dict.get "primary" (apt_head w node preserve_sources archive)
  = Some (YSeq [YMap [("arches", YSeq [YStr "default"]);
                      ("uri", YStr (archive_url archive))]])
  /\ Dict.get "security" (apt_head w node preserve_sources archive)
     = Some (YSeq [YMap [("arches", YSeq [YStr "default"]);
                         ("uri", YStr (archive_url archive))]])
  /\ Dict.get "disable_suites" (apt_head w node preserve_sources archive)
     = (if nonempty (archive_disabled_pockets archive)
        then Some (YSeq (map YStr (archive_disabled_pockets archive)))
        else None)
  /\ Dict.get "proxy" (apt_head w node preserve_sources archive)
     = option_map YStr (get_apt_proxy_for_node w node).
Proof.
  unfold apt_head.
  destruct (get_apt_proxy_for_node w node) as [p|] eqn:Hproxy;
    [rewrite (get_apt_proxy_for_node_truthy _ _ _ Hproxy)|];
    destruct (truthy (archive_key archive));
    destruct (nonempty (archive_disabled_pockets archive));
    repeat split;
    rewrite ?get_set_eq, ?get_set_ne by reflexivity;
    rewrite ?get_set_eq, ?get_set_ne by reflexivity;
    reflexivity.
Qed.

(** ** The archive block *)

Lemma fold_add_source_keys (node : Node) (repos : list PackageRepository)
    (sources : dict) (k : string) :
  Dict.has k (fold_left (add_source node) repos sources) = true ->
  Dict.has k sources = true
  \/ exists repo, In repo repos /\ k = make_clean_repo_name repo.
Proof.
  revert sources.
  induction repos as [|r repos IH]; intros sources H; simpl in H;
    [now left|].
  destruct (IH _ H) as [Hk|(repo & Hin & ->)].
  - unfold add_source, Dict.has in Hk.
    destruct (String.eqb k (make_clean_repo_name r)) eqn:E.
    + apply String.eqb_eq in E. right. exists r. split; [now left|exact E].
    + rewrite get_set_ne in Hk by exact E. now left.
  - right. exists repo. split; [now right|reflexivity].
Qed.

Lemma make_clean_repo_name_suffix (repo : PackageRepository) :
  endswith ("_" ++ str_of_int (repo_id repo)) (make_clean_repo_name repo)
  = true.
Proof. rewrite make_clean_repo_name_eq. apply endswith_app. Qed.

(** C10: the key of every additional repository ends with an underscore
    and the identifier, so it is never archive_key; with a signing key on
    the default archive, the sources map built from any list of additional
    repositories still holds the archive_key entry, and its other keys are
    the sanitized names. *)
Theorem additional_sources_keep_archive_key (w : World) (node : Node)
    (preserve_sources : bool) (archive : Archive) :
  get_default_archive w (fst (split_arch node)) = Some archive ->
  truthy (archive_key archive) = true ->
  exists apt sources,
    get_archive_config w node preserve_sources = Ok [("apt", YMap apt)]
    /\ Dict.get "sources" apt = Some (YMap sources)
    /\ Dict.get "archive_key" sources
       = Some (YMap [("key", YStr (archive_key archive))])
    /\ (forall repo,
          endswith ("_" ++ str_of_int (repo_id repo))
            (make_clean_repo_name repo) = true
          /\ make_clean_repo_name repo <> "archive_key")
    /\ (forall k,
          Dict.has k sources = true ->
          k = "archive_key"
          \/ exists repo,
               In repo (get_additional_repositories w (fst (split_arch node)))
               /\ k = make_clean_repo_name repo).
Proof.
  intros Harchive Hkey.
  pose proof (apt_head_sources w node preserve_sources archive) as Hhead.
  rewrite Hkey in Hhead.
  exists (apt_block w node preserve_sources archive).
  eexists.
  split; [exact (get_archive_config_some _ _ _ _ Harchive)|].
  split; [exact (fold_sources_some _ _ _ _ Hhead)|].
  assert (forall repo, make_clean_repo_name repo <> "archive_key") as Hne
    by (intros repo; now apply make_clean_repo_name_neq).
  split; [now rewrite fold_add_source_other|].
  split.
  - intros repo. split; [apply make_clean_repo_name_suffix | apply Hne].
  - intros k Hk. apply fold_add_source_keys in Hk as [Hk|Hk]; [left|now right].
    unfold Dict.has in Hk. simpl in Hk.
    destruct (String.eqb k "archive_key") eqn:E; [|discriminate].
    now apply String.eqb_eq.
Qed.

Lemma additional_sources_keep_archive_key_witness :
  exists apt sources,
    get_archive_config
      (sample_world [sample_repo 1 "archive key" [] [];
                     sample_repo 2 "Archive_Key" [] []]
         (Raise NotImplementedError))
      (sample_node DISK_ERASING) false
    = Ok [("apt", YMap apt)]
    /\ Dict.get "sources" apt = Some (YMap sources)
    /\ Dict.get "archive_key" sources = Some (YMap [("key", YStr "KEY")])
    /\ Dict.has "archive_key_1" sources = true.
Proof.
  destruct (additional_sources_keep_archive_key
              (sample_world [sample_repo 1 "archive key" [] [];
                             sample_repo 2 "Archive_Key" [] []]
                 (Raise NotImplementedError))
              (sample_node DISK_ERASING) false sample_archive
              eq_refl eq_refl)
    as (apt & sources & H1 & H2 & H3 & _).
  exists apt, sources. repeat split; try assumption.
  injection H1 as <-. vm_compute in H2. injection H2 as <-. reflexivity.
Defined.

Lemma get_path_source (node : Node) (repo : PackageRepository)
    (apt sources : dict) :
  Dict.get "sources" apt = Some (YMap sources) ->
  Dict.get (make_clean_repo_name repo) sources
  = Some (repository_entry node repo) ->
  Dict.get_path ["sources"; make_clean_repo_name repo; "source"] (YMap apt)
  = Some (YStr (repository_source node repo)).
Proof.
  intros Hs He. simpl. rewrite Hs, He. unfold repository_entry.
  now destruct (truthy (repo_key repo)).
Qed.

Lemma apt_block_sources (w : World) (node : Node) (preserve_sources : bool)
    (archive : Archive) :
  get_additional_repositories w (fst (split_arch node)) <> [] ->
  exists sources0,
    Dict.get "sources" (apt_block w node preserve_sources archive)
    = Some (YMap (fold_left (add_source node)
                    (get_additional_repositories w (fst (split_arch node)))
                    sources0)).
Proof.
  intros Hne. unfold apt_block.
  pose proof (apt_head_sources w node preserve_sources archive) as Hhead.
  destruct (truthy (archive_key archive)).
  - eexists. exact (fold_sources_some _ _ _ _ Hhead).
  - exists []. exact (fold_sources_none _ _ _ Hhead Hne).
Qed.

(** C6 (amended): in the archive block the source entry of a generic
    repository is the single line deb <url> <series> main when it lists no
    distributions and no components; with the two distributions a and b it
    is two deb lines, one per distribution and with the same component
    list, each of them followed by a newline. *)
Theorem generic_repository_source (w : World) (node : Node)
    (preserve_sources : bool) (archive : Archive)
    (repo : PackageRepository) :
  get_default_archive w (fst (split_arch node)) = Some archive ->
  In repo (get_additional_repositories w (fst (split_arch node))) ->
  (forall r,
     In r (get_additional_repositories w (fst (split_arch node))) ->
     repo_id r = repo_id repo -> r = repo) ->
  startswith "ppa:" (repo_url repo) = false ->
  contains "ppa.launchpad.net" (repo_url repo) = false ->
  exists apt source,
    get_archive_config w node preserve_sources = Ok [("apt", YMap apt)]
    /\ Dict.get_path ["sources"; make_clean_repo_name repo; "source"]
         (YMap apt) = Some (YStr source)
    /\ match repo_distributions repo, repo_components repo with
       | [], [] =>
           source
           = "deb " ++ repo_url repo ++ " " ++ distro_series node ++ " main"
       | [a; b], _ =>
           source
           = ("deb " ++ repo_url repo ++ " " ++ a ++ " "
                ++ repository_components repo ++ String newline "")
             ++ ("deb " ++ repo_url repo ++ " " ++ b ++ " "
                   ++ repository_components repo ++ String newline "")
       | _, _ => True
       end.
Proof.
  intros Harchive Hin Huniq Hppa Hhost.
  destruct (apt_block_sources w node preserve_sources archive)
    as [sources0 Hsources].
  { intros E. now rewrite E in Hin. }
  exists (apt_block w node preserve_sources archive),
         (repository_source node repo).
  split; [exact (get_archive_config_some _ _ _ _ Harchive)|].
  split.
  - apply (get_path_source node repo _ _ Hsources).
    apply fold_add_source_entry; [exact Huniq | now left].
  - unfold repository_source. rewrite Hppa, Hhost.
    destruct (repo_distributions repo) as [|a [|b [|c l]]]; simpl; trivial.
    unfold repository_components.
    destruct (repo_components repo); simpl; trivial.
Qed.

Lemma generic_repository_source_witness :
  exists apt,
    get_archive_config
      (sample_world [sample_repo 1 "My Repo" [] [];
                     sample_repo 2 "x" ["a"; "b"] ["main"; "universe"]]
         (Raise NotImplementedError))
      (sample_node DISK_ERASING) false
    = Ok [("apt", YMap apt)]
    /\ Dict.get_path ["sources"; "my_repo_1"; "source"] (YMap apt)
       = Some (YStr "deb http://mirror.example/ubuntu xenial main").
Proof.
  destruct (generic_repository_source
              (sample_world [sample_repo 1 "My Repo" [] [];
                             sample_repo 2 "x" ["a"; "b"] ["main"; "universe"]]
                 (Raise NotImplementedError))
              (sample_node DISK_ERASING) false sample_archive
              (sample_repo 1 "My Repo" [] []))
    as (apt & source & H1 & H2 & H3).
  - reflexivity.
  - now left.
  - intros r [<-|[<-|[]]]; [reflexivity | discriminate].
  - reflexivity.
  - reflexivity.
  - exists apt. split; [exact H1|]. simpl in H3. rewrite H3 in H2. exact H2.
Defined.

(** C6 (as stated, refuted): with the distributions a and b the source
    entry is not the two deb lines joined by a newline; a newline follows
    the second line too. *)
Lemma generic_repository_two_distributions_counterexample :
  match get_archive_config
          (sample_world [sample_repo 2 "x" ["a"; "b"] []]
             (Raise NotImplementedError))
          (sample_node DISK_ERASING) false
  with
  | Ok archives =>
      Dict.get_path ["apt"; "sources"; "x_2"; "source"] (YMap archives)
  | Raise _ => None
  end
  = Some (YStr ("deb http://mirror.example/ubuntu a main"
                  ++ String newline
                       ("deb http://mirror.example/ubuntu b main"
                          ++ String newline "")))
  /\ "deb http://mirror.example/ubuntu a main"
       ++ String newline
            ("deb http://mirror.example/ubuntu b main" ++ String newline "")
     <> join (String newline "")
          ["deb http://mirror.example/ubuntu a main";
           "deb http://mirror.example/ubuntu b main"].
Proof. split; [reflexivity | vm_compute; discriminate]. Qed.

(** ** The dispatcher *)


(** ** Keys of a composed configuration *)

Lemma mentions_set (k k' : string) (v : yaml) (d : dict) :
  mentions_key k (YMap d) = false ->
  String.eqb k k' = false ->
  mentions_key k v = false ->
  mentions_key k (YMap (Dict.set k' v d)) = false.
Proof.
  intros Hd Hk Hv. induction d as [|[k0 v0] d IH]; simpl in *.
  - now rewrite Hk, Hv.
  - apply orb_false_iff in Hd as [H0 Hd].
    destruct (String.eqb k' k0); simpl.
    + now rewrite Hk, Hv, Hd.
    + now rewrite H0, (IH Hd).
Qed.

Lemma mentions_get (k k' : string) (v : yaml) (d : dict) :
  mentions_key k (YMap d) = false ->
  Dict.get k' d = Some v ->
  String.eqb k k' = false /\ mentions_key k v = false.
Proof.
  intros Hd. induction d as [|[k0 v0] d IH]; simpl in *; [discriminate|].
  apply orb_false_iff in Hd as [H0 Hd].
  apply orb_false_iff in H0 as [Hk0 Hv0].
  destruct (String.eqb k' k0) eqn:E.
  - apply String.eqb_eq in E. subst k0. now intros [= <-].
  - now apply IH.
Qed.

Lemma mentions_set_in (k k1 k2 : string) (v : yaml) (d : dict) :
  mentions_key k (YMap d) = false ->
  String.eqb k k2 = false ->
  mentions_key k v = false ->
  mentions_key k (YMap (Dict.set_in k1 k2 v d)) = false.
Proof.
  intros Hd Hk Hv. unfold Dict.set_in.
  destruct (Dict.get k1 d) as [[| | | |inner]|] eqn:E; try exact Hd.
  destruct (mentions_get _ _ _ _ Hd E) as [Hk1 Hinner].
  apply mentions_set; [exact Hd | exact Hk1 |].
  now apply mentions_set.
Qed.

Lemma mentions_strings (k : string) (l : list string) :
  mentions_key k (YSeq (map YStr l)) = false.
Proof. induction l as [|s l IH]; simpl; [reflexivity | exact IH]. Qed.

Lemma mentions_add_repository (k : string) (node : Node) (apt : dict)
    (repo : PackageRepository) :
  String.eqb k "sources" = false ->
  String.eqb k "key" = false ->
  String.eqb k "source" = false ->
  make_clean_repo_name repo <> k ->
  mentions_key k (YMap apt) = false ->
  mentions_key k (YMap (add_repository node apt repo)) = false.
Proof.
  intros H1 H2 H3 Hname Hapt. rewrite add_repository_eq.
  apply mentions_set_in.
  - destruct (negb (Dict.has "sources" apt)); [|exact Hapt].
    now apply mentions_set.
  - apply String.eqb_neq. intros E. now apply Hname.
  - unfold repository_entry. destruct (truthy (repo_key repo)); simpl;
      now rewrite ?H2, ?H3.
Qed.

Lemma power_state_not_in_apt_head (w : World) (node : Node)
    (preserve_sources : bool) (archive : Archive) :
  mentions_key "power_state"
    (YMap (apt_head w node preserve_sources archive)) = false.
Proof.
  unfold apt_head.
  destruct (truthy (archive_key archive));
    destruct (get_apt_proxy_for_node w node) as [p|];
    try destruct (truthy p);
    destruct (nonempty (archive_disabled_pockets archive));
    repeat (apply mentions_set;
            [ | reflexivity | try apply mentions_strings; reflexivity ]);
    reflexivity.
Qed.

Lemma power_state_not_in_apt_block (w : World) (node : Node)
    (preserve_sources : bool) (archive : Archive) :
  mentions_key "power_state"
    (YMap (apt_block w node preserve_sources archive)) = false.
Proof.
  unfold apt_block.
  generalize (power_state_not_in_apt_head w node preserve_sources archive).
  generalize (apt_head w node preserve_sources archive).
  induction (get_additional_repositories w (fst (split_arch node)))
    as [|r repos IH]; intros apt Hapt; simpl; [exact Hapt|].
  apply IH. apply mentions_add_repository; try reflexivity; [|exact Hapt].
  now apply make_clean_repo_name_neq.
Qed.

(** ** The composed documents *)

(** C3: the power-off decision depends on the machine status alone:
    disk erasing gives a power-off with timeout 604800, entering rescue
    mode gives no power-off, every other status a power-off with timeout
    3600; and a power-off block always carries the guard condition on the
    sentinel file. *)
Theorem commissioning_poweroff_policy (w : World) (node : Node)
    (token : Token) (base_url : string) (archive : Archive) :
  get_default_archive w (fst (split_arch node)) = Some archive ->
  exists cloud_config,
    _compose_cloud_init_preseed_config w node token
      (absolute_reverse w "metadata" [] base_url) base_url
      (match status node with ENTERING_RESCUE_MODE => false | _ => true end)
      (match status node with DISK_ERASING => 604800 | _ => 3600 end)%Z
      (Some "test ! -e /tmp/block-poweroff")
    = Ok cloud_config
    /\ compose_commissioning_preseed w node token base_url
       = Ok ("#cloud-config"
               ++ String newline (safe_dump w (YMap cloud_config)))
    /\ Dict.get "power_state" cloud_config
       = match status node with
         | DISK_ERASING =>
             Some (YMap [("delay", YStr "now"); ("mode", YStr "poweroff");
                         ("timeout", YInt 604800);
                         ("condition",
                           YStr "test ! -e /tmp/block-poweroff")])
         | ENTERING_RESCUE_MODE => None
         | OTHER_STATUS _ =>
             Some (YMap [("delay", YStr "now"); ("mode", YStr "poweroff");
                         ("timeout", YInt 3600);
                         ("condition",
                           YStr "test ! -e /tmp/block-poweroff")])
         end.
Proof.
  intros Harchive.
  unfold compose_commissioning_preseed, _compose_cloud_init_preseed,
    _compose_cloud_init_preseed_config.
  rewrite (get_archive_config_some _ _ _ _ Harchive). cbn [rbind].
  eexists. split; [reflexivity|].
  split; [now destruct (status node)|].
  destruct (status node); unfold Dict.set_in; rewrite ?get_set_eq;
    try reflexivity.
  destruct (get_apt_proxy_for_node w node) as [p|]; [destruct (truthy p)|];
    simpl; rewrite ?get_set_ne by reflexivity; reflexivity.
Qed.

Lemma commissioning_poweroff_policy_witness :
  exists cloud_config,
    compose_commissioning_preseed
      (sample_world [sample_repo 1 "My Repo" [] []]
         (Raise NotImplementedError))
      (sample_node DISK_ERASING)
      {| consumer_key := "ck"; token_key := "tk"; token_secret := "ts" |}
      "http://rack.example"
    = Ok ("#cloud-config" ++ String newline (flow_dump (YMap cloud_config)))
    /\ Dict.get_path ["power_state"; "timeout"] (YMap cloud_config)
       = Some (YInt 604800)
    /\ Dict.get_path ["power_state"; "condition"] (YMap cloud_config)
       = Some (YStr "test ! -e /tmp/block-poweroff").
Proof.
  destruct (commissioning_poweroff_policy
              (sample_world [sample_repo 1 "My Repo" [] []]
                 (Raise NotImplementedError))
              (sample_node DISK_ERASING)
              {| consumer_key := "ck"; token_key := "tk";
                 token_secret := "ts" |}
              "http://rack.example" sample_archive eq_refl)
    as (cloud_config & _ & H2 & H3).
  exists cloud_config. split; [exact H2|].
  simpl in H3 |- *. rewrite H3. split; reflexivity.
Defined.

Lemma get_archive_config_shape (w : World) (node : Node)
    (preserve_sources : bool) (archives : dict) :
  get_archive_config w node preserve_sources = Ok archives ->
  exists archive,
    get_default_archive w (fst (split_arch node)) = Some archive
    /\ archives = [("apt", YMap (apt_block w node preserve_sources archive))].
Proof.
  unfold get_archive_config.
  destruct (get_default_archive w (fst (split_arch node))) as [archive|];
    [|discriminate].
  intros [= <-]. now exists archive.
Qed.

Lemma cloud_config_reporting (w : World) (node : Node) (token : Token)
    (metadata_url base_url : string) (poweroff : bool)
    (poweroff_timeout : Z) (poweroff_condition : option string)
    (cloud_config : dict) :
  _compose_cloud_init_preseed_config w node token metadata_url base_url
    poweroff poweroff_timeout poweroff_condition = Ok cloud_config ->
  Dict.get "reporting" cloud_config
  = Some (YMap [
      ("maas",
        YMap [
          ("type", YStr "webhook");
          ("endpoint",
            YStr (absolute_reverse w "metadata-status" [system_id node]
                    base_url));
          ("consumer_key", YStr (consumer_key token));
          ("token_key", YStr (token_key token));
          ("token_secret", YStr (token_secret token)) ]) ]).
Proof.
  unfold _compose_cloud_init_preseed_config.
  destruct (get_archive_config w node false) as [archives|] eqn:E;
    [|discriminate].
  apply get_archive_config_shape in E as (archive & _ & ->).
  cbn [rbind]. intros [= <-].
  destruct poweroff; [destruct poweroff_condition|];
    rewrite ?get_set_in_ne, ?get_set_ne by reflexivity;
    cbn [Dict.update fold_left fst snd];
    rewrite ?get_set_ne by reflexivity;
    (destruct (get_apt_proxy_for_node w node) as [p|];
     [destruct (truthy p)|]);
    rewrite ?get_set_ne by reflexivity; reflexivity.
Qed.

Lemma cloud_config_without_poweroff (w : World) (node : Node)
    (token : Token) (metadata_url base_url : string)
    (poweroff_timeout : Z) (poweroff_condition : option string)
    (cloud_config : dict) :
  _compose_cloud_init_preseed_config w node token metadata_url base_url
    false poweroff_timeout poweroff_condition = Ok cloud_config ->
  mentions_key "power_state" (YMap cloud_config) = false.
Proof.
  unfold _compose_cloud_init_preseed_config.
  destruct (get_archive_config w node false) as [archives|] eqn:E;
    [|discriminate].
  apply get_archive_config_shape in E as (archive & _ & ->).
  cbn [rbind]. intros [= <-].
  cbn [Dict.update fold_left fst snd].
  apply mentions_set;
    [ | reflexivity | apply power_state_not_in_apt_block ].
  destruct (get_apt_proxy_for_node w node) as [p|]; [destruct (truthy p)|];
    try (apply mentions_set; [ | reflexivity | reflexivity ]);
    reflexivity.
Qed.

(** C4: a commissioning document is the dump of a configuration whose
    reporting block is the webhook with the consumer key, the token key and
    the token secret, whatever the OS-specific provider would answer; the
    curtin document of the fallback path is the dump of a configuration in
    which no dict, at any depth, has the key power_state. *)
Theorem reporting_block_and_no_poweroff (w : World) (node : Node)
    (log : list DelegateCall) (archive : Archive) :
  get_default_archive w (fst (split_arch node)) = Some archive ->
  (exists cloud_config,
     fst (compose_preseed w COMMISSIONING node log)
     = Ok ("#cloud-config"
             ++ String newline (safe_dump w (YMap cloud_config)))
     /\ _compose_cloud_init_preseed_config w node (get_token_for_node w node)
          (absolute_reverse w "metadata" []
             (rack_url (get_boot_rack_controller node)))
          (rack_url (get_boot_rack_controller node))
          (negb (NODE_STATUS_eqb (status node) ENTERING_RESCUE_MODE))
          (if NODE_STATUS_eqb (status node) DISK_ERASING
           then timedelta_total_seconds 7 0
           else timedelta_total_seconds 0 1)
          (Some "test ! -e /tmp/block-poweroff")
        = Ok cloud_config
     /\ Dict.get "reporting" cloud_config
        = Some (YMap [
            ("maas",
              YMap [
                ("type", YStr "webhook");
                ("endpoint",
                  YStr (absolute_reverse w "metadata-status"
                          [system_id node]
                          (rack_url (get_boot_rack_controller node))));
                ("consumer_key",
                  YStr (consumer_key (get_token_for_node w node)));
                ("token_key", YStr (token_key (get_token_for_node w node)));
                ("token_secret",
                  YStr (token_secret (get_token_for_node w node))) ]) ]))
  /\ (get_preseed_data w CURTIN node (get_token_for_node w node)
        (absolute_reverse w "curtin-metadata" []
           (rack_url (get_boot_rack_controller node)))
      = Raise NotImplementedError ->
      exists cloud_config,
        fst (compose_preseed w CURTIN node log)
        = Ok ("#cloud-config"
                ++ String newline (safe_dump w (YMap cloud_config)))
        /\ _compose_cloud_init_preseed_config w node
             (get_token_for_node w node)
             (absolute_reverse w "curtin-metadata" []
                (rack_url (get_boot_rack_controller node)))
             (rack_url (get_boot_rack_controller node)) false 3600%Z None
           = Ok cloud_config
        /\ mentions_key "power_state" (YMap cloud_config) = false).
Proof.
  intros Harchive. split.
  - destruct (_compose_cloud_init_preseed_config w node
                (get_token_for_node w node)
                (absolute_reverse w "metadata" []
                   (rack_url (get_boot_rack_controller node)))
                (rack_url (get_boot_rack_controller node))
                (negb (NODE_STATUS_eqb (status node) ENTERING_RESCUE_MODE))
                (if NODE_STATUS_eqb (status node) DISK_ERASING
                 then timedelta_total_seconds 7 0
                 else timedelta_total_seconds 0 1)
                (Some "test ! -e /tmp/block-poweroff"))
      as [cloud_config|e] eqn:E.
    + exists cloud_config. split; [|split; [reflexivity|]].
      * unfold compose_preseed, lift, compose_commissioning_preseed,
          _compose_cloud_init_preseed. simpl. now rewrite E.
      * exact (cloud_config_reporting _ _ _ _ _ _ _ _ _ E).
    + unfold _compose_cloud_init_preseed_config in E.
      rewrite (get_archive_config_some _ _ _ _ Harchive) in E.
      discriminate.
  - intros Hdelegate.
    destruct (_compose_cloud_init_preseed_config w node
                (get_token_for_node w node)
                (absolute_reverse w "curtin-metadata" []
                   (rack_url (get_boot_rack_controller node)))
                (rack_url (get_boot_rack_controller node)) false 3600%Z None)
      as [cloud_config|e] eqn:E.
    + exists cloud_config. split; [|split; [reflexivity|]].
      * unfold compose_preseed, try_except, call_get_preseed_data, lift,
          compose_curtin_preseed, _compose_cloud_init_preseed,
          _get_metadata_url.
        simpl. rewrite Hdelegate. simpl. now rewrite E.
      * exact (cloud_config_without_poweroff _ _ _ _ _ _ _ _ E).
    + unfold _compose_cloud_init_preseed_config in E.
      rewrite (get_archive_config_some _ _ _ _ Harchive) in E.
      discriminate.
Qed.

Lemma reporting_block_and_no_poweroff_witness :
  (exists cloud_config,
     fst (compose_preseed
            (sample_world [sample_repo 1 "power state" [] []]
               (Ok "provider data"))
            COMMISSIONING (sample_node (OTHER_STATUS 1)) [])
     = Ok ("#cloud-config"
             ++ String newline (flow_dump (YMap cloud_config)))
     /\ Dict.get_path ["reporting"; "maas"; "token_secret"]
          (YMap cloud_config) = Some (YStr "ts"))
  /\ (exists cloud_config,
        fst (compose_preseed
               (sample_world [sample_repo 1 "power state" [] []]
                  (Raise NotImplementedError))
               CURTIN (sample_node (OTHER_STATUS 1)) [])
        = Ok ("#cloud-config"
                ++ String newline (flow_dump (YMap cloud_config)))
        /\ mentions_key "power_state" (YMap cloud_config) = false).
Proof.
  split.
  - destruct (reporting_block_and_no_poweroff
                (sample_world [sample_repo 1 "power state" [] []]
                   (Ok "provider data"))
                (sample_node (OTHER_STATUS 1)) [] sample_archive eq_refl)
      as [(c1 & H1 & _ & H3) _].
    exists c1. split; [exact H1|]. simpl in H3 |- *. now rewrite H3.
  - destruct (reporting_block_and_no_poweroff
                (sample_world [sample_repo 1 "power state" [] []]
                   (Raise NotImplementedError))
                (sample_node (OTHER_STATUS 1)) [] sample_archive eq_refl)
      as [_ Hcurtin].
    destruct (Hcurtin eq_refl) as (c2 & H4 & _ & H6).
    exists c2. split; [exact H4 | exact H6].
Defined.

Lemma system_info_block (w : World) :
  Dict.get "system_info" (get_system_info w)
  = Some (YMap [
           ("package_mirrors",
             YSeq [
               YMap [
                 ("arches", YSeq [YStr "i386"; YStr "amd64"]);
                 ("search",
                   YMap [
                     ("primary",
                       YSeq [YStr (archive_url (get_main_archive w))]);
                     ("security",
                       YSeq [YStr (archive_url (get_main_archive w))]) ]);
                 ("failsafe",
                   YMap [
                     ("primary", YStr "http://archive.ubuntu.com/ubuntu");
                     ("security", YStr "http://security.ubuntu.com/ubuntu")
                   ]) ];
               YMap [
                 ("arches", YSeq [YStr "default"]);
                 ("search",
                   YMap [
                     ("primary",
                       YSeq [YStr (archive_url (get_ports_archive w))]);
                     ("security",
                       YSeq [YStr (archive_url (get_ports_archive w))]) ]);
                 ("failsafe",
                   YMap [
                     ("primary", YStr "http://ports.ubuntu.com/ubuntu-ports");
                     ("security", YStr "http://ports.ubuntu.com/ubuntu-ports")
                   ]) ] ]) ]).
Proof. reflexivity. Qed.

Lemma debconf_config_facts (w : World) (node : Node) (token : Token)
    (base_url : string) (config : dict) :
  compose_cloud_init_preseed_config w node token base_url = Ok config ->
  exists archive,
    get_default_archive w (fst (split_arch node)) = Some archive
    /\ Dict.get "system_info" config
       = Dict.get "system_info" (get_system_info w)
    /\ Dict.get "apt_proxy" config
       = option_map YStr (get_apt_proxy_for_node w node)
    /\ Dict.get "reporting" config
       = Some (YMap [
           ("maas",
             YMap [
               ("type", YStr "webhook");
               ("endpoint",
                 YStr (absolute_reverse w "metadata-status"
                         [system_id node] base_url));
               ("consumer_key", YStr (consumer_key token));
               ("token_key", YStr (token_key token));
               ("token_secret", YStr (token_secret token)) ]) ])
    /\ Dict.get "apt" config = Some (YMap (apt_block w node false archive))
    /\ Dict.get "apt_preserve_sources_list" config = Some (YBool true).
Proof.
  unfold compose_cloud_init_preseed_config.
  destruct (get_archive_config w node false) as [archives|] eqn:E;
    [|discriminate].
  apply get_archive_config_shape in E as (archive & Harchive & ->).
  cbn [rbind]. intros [= <-]. exists archive.
  split; [exact Harchive|].
  cbn [Dict.update fold_left fst snd].
  destruct (get_apt_proxy_for_node w node) as [p|] eqn:Hproxy.
  - rewrite (get_apt_proxy_for_node_truthy _ _ _ Hproxy).
    repeat split; rewrite ?get_set_eq, ?get_set_ne by reflexivity;
      reflexivity.
  - repeat split; rewrite ?get_set_eq, ?get_set_ne by reflexivity;
      reflexivity.
Qed.

Lemma apt_block_preserve (w : World) (node : Node) (preserve_sources : bool)
    (archive : Archive) :
  Dict.get "preserve_sources_list"
    (apt_block w node preserve_sources archive)
  = Some (YBool preserve_sources).
Proof.
  unfold apt_block. rewrite fold_get_ne by reflexivity.
  apply apt_head_preserve.
Qed.

(** C2 (amended): a request that is neither commissioning nor curtin and
    reaches the fallback gets four debconf lines, in this order: the
    datasources line with value MAAS, the metadata URL, the URL-encoded
    credentials, and the local configuration, which is the escaped dump of
    a configuration holding the system info (the two mirror entries), the
    proxy when there is one, the reporting webhook and the repository
    block, which is what get_archive_config returns; that block is built
    with preserve_sources_list false, and it is the separate top-level entry
    apt_preserve_sources_list that is true. *)
Theorem debconf_fallback_document (w : World) (preseed_type : PRESEED_TYPE)
    (node : Node) (log : list DelegateCall) (archive : Archive) :
  preseed_type <> COMMISSIONING ->
  preseed_type <> CURTIN ->
  get_preseed_data w preseed_type node (get_token_for_node w node)
    (_get_metadata_url w preseed_type
       (rack_url (get_boot_rack_controller node)))
  = Raise NotImplementedError ->
  get_default_archive w (fst (split_arch node)) = Some archive ->
  exists config apt,
    compose_cloud_init_preseed_config w node (get_token_for_node w node)
      (rack_url (get_boot_rack_controller node)) = Ok config
    /\ fst (compose_preseed w preseed_type node log)
       = Ok (join (String newline "")
               [ "cloud-init   cloud-init/datasources  multiselect MAAS";
                 "cloud-init   cloud-init/maas-metadata-url  string "
                   ++ absolute_reverse w "metadata" []
                        (rack_url (get_boot_rack_controller node));
                 "cloud-init   cloud-init/maas-metadata-credentials  string "
                   ++ urlencode w
                        [ ("oauth_consumer_key",
                            consumer_key (get_token_for_node w node));
                          ("oauth_token_key",
                            token_key (get_token_for_node w node));
                          ("oauth_token_secret",
                            token_secret (get_token_for_node w node)) ];
                 "cloud-init   cloud-init/local-cloud-config  string "
                   ++ debconf_escape (safe_dump w (YMap config)) ])
    /\ Dict.get "system_info" config
       = Some (YMap [
           ("package_mirrors",
             YSeq [
               YMap [
                 ("arches", YSeq [YStr "i386"; YStr "amd64"]);
                 ("search",
                   YMap [
                     ("primary",
                       YSeq [YStr (archive_url (get_main_archive w))]);
                     ("security",
                       YSeq [YStr (archive_url (get_main_archive w))]) ]);
                 ("failsafe",
                   YMap [
                     ("primary", YStr "http://archive.ubuntu.com/ubuntu");
                     ("security", YStr "http://security.ubuntu.com/ubuntu")
                   ]) ];
               YMap [
                 ("arches", YSeq [YStr "default"]);
                 ("search",
                   YMap [
                     ("primary",
                       YSeq [YStr (archive_url (get_ports_archive w))]);
                     ("security",
                       YSeq [YStr (archive_url (get_ports_archive w))]) ]);
                 ("failsafe",
                   YMap [
                     ("primary", YStr "http://ports.ubuntu.com/ubuntu-ports");
                     ("security", YStr "http://ports.ubuntu.com/ubuntu-ports")
                   ]) ] ]) ])
    /\ Dict.get "apt_proxy" config
       = option_map YStr (get_apt_proxy_for_node w node)
    /\ Dict.get "reporting" config
       = Some (YMap [
           ("maas",
             YMap [
               ("type", YStr "webhook");
               ("endpoint",
                 YStr (absolute_reverse w "metadata-status"
                         [system_id node]
                         (rack_url (get_boot_rack_controller node))));
               ("consumer_key",
                 YStr (consumer_key (get_token_for_node w node)));
               ("token_key", YStr (token_key (get_token_for_node w node)));
               ("token_secret",
                 YStr (token_secret (get_token_for_node w node))) ]) ])
    /\ get_archive_config w node false = Ok [("apt", YMap apt)]
    /\ Dict.get "apt" config = Some (YMap apt)
    /\ Dict.get "preserve_sources_list" apt = Some (YBool false)
    /\ Dict.get "primary" apt
       = Some (YSeq [YMap [("arches", YSeq [YStr "default"]);
                           ("uri", YStr (archive_url archive))]])
    /\ Dict.get "security" apt
       = Some (YSeq [YMap [("arches", YSeq [YStr "default"]);
                           ("uri", YStr (archive_url archive))]])
    /\ Dict.get "apt_preserve_sources_list" config = Some (YBool true).
Proof.
  intros Hcomm Hcurtin Hdelegate Harchive.
  destruct (compose_cloud_init_preseed_config w node
              (get_token_for_node w node)
              (rack_url (get_boot_rack_controller node)))
    as [config|e] eqn:E.
  - destruct (debconf_config_facts _ _ _ _ _ E)
      as (archive' & Harchive' & Hinfo & Hproxy & Hreport & Hapt & Hlegacy).
    assert (archive' = archive) as -> by congruence.
    destruct (apt_head_fields w node false archive)
      as (Hprimary & Hsecurity & _ & _).
    exists config, (apt_block w node false archive).
    split; [reflexivity|].
    split.
    + unfold compose_preseed, try_except, call_get_preseed_data, lift.
      destruct preseed_type; try congruence.
      simpl PRESEED_TYPE_eqb. cbv iota. cbv beta.
      rewrite Hdelegate. cbv iota. cbv beta. simpl fst.
      unfold compose_cloud_init_preseed. rewrite E. reflexivity.
    + split; [rewrite Hinfo; apply system_info_block|].
      split; [exact Hproxy|]. split; [exact Hreport|].
      split; [exact (get_archive_config_some _ _ _ _ Harchive')|].
      split; [exact Hapt|].
      split; [apply apt_block_preserve|].
      unfold apt_block. rewrite !fold_get_ne by reflexivity.
      split; [exact Hprimary|]. split; [exact Hsecurity | exact Hlegacy].
  - unfold compose_cloud_init_preseed_config in E.
    rewrite (get_archive_config_some _ _ _ _ Harchive) in E. discriminate.
Qed.

Lemma debconf_fallback_document_witness :
  exists config,
    fst (compose_preseed
           (sample_world [sample_repo 1 "My Repo" [] []]
              (Raise NotImplementedError))
           DEFAULT (sample_node (OTHER_STATUS 6)) [])
    = Ok (join (String newline "")
            [ "cloud-init   cloud-init/datasources  multiselect MAAS";
              "cloud-init   cloud-init/maas-metadata-url  string "
                ++ "http://rack.example/metadata";
              "cloud-init   cloud-init/maas-metadata-credentials  string "
                ++ "oauth_consumer_key=ck&oauth_token_key=tk"
                ++ "&oauth_token_secret=ts";
              "cloud-init   cloud-init/local-cloud-config  string "
                ++ debconf_escape (flow_dump (YMap config)) ])
    /\ Dict.get_path ["apt"; "preserve_sources_list"] (YMap config)
       = Some (YBool false)
    /\ Dict.get "apt_preserve_sources_list" config = Some (YBool true).
Proof.
  destruct (debconf_fallback_document
              (sample_world [sample_repo 1 "My Repo" [] []]
                 (Raise NotImplementedError))
              DEFAULT (sample_node (OTHER_STATUS 6)) [] sample_archive)
    as (config & apt & _ & H2 & _ & _ & _ & _ & H6 & H7 & _ & _ & H8).
  - discriminate.
  - discriminate.
  - reflexivity.
  - reflexivity.
  - exists config. split; [exact H2|]. split; [|exact H8].
    simpl. rewrite H6. now rewrite H7.
Defined.

(** C2 (as stated, refuted): in the debconf fallback of the sample machine
    the repository block carries preserve_sources_list false, in the
    configuration and in the composed document. *)
Lemma debconf_fallback_preserve_sources_counterexample :
  match compose_cloud_init_preseed_config
          (sample_world [] (Raise NotImplementedError))
          (sample_node (OTHER_STATUS 6))
          {| consumer_key := "ck"; token_key := "tk"; token_secret := "ts" |}
          "http://rack.example"
  with
  | Ok config =>
      Dict.get_path ["apt"; "preserve_sources_list"] (YMap config)
  | Raise _ => None
  end = Some (YBool false)
  /\ match fst (compose_preseed
                  (sample_world [] (Raise NotImplementedError))
                  DEFAULT (sample_node (OTHER_STATUS 6)) [])
     with
     | Ok document =>
         contains "apt: {preserve_sources_list: false" document
         && negb (contains "apt: {preserve_sources_list: true" document)
     | Raise _ => false
     end = true
  /\ Some (YBool false) <> Some (YBool true).
Proof. repeat split; try reflexivity. discriminate. Qed.

(** * Further properties of the composer *)

(** ** Sanitized names as file names *)

Lemma clean_char_file_safe (c : ascii) :
  negb (mem_char c special_characters) = true ->
  negb (Ascii.eqb (clean_char c) " ")
  && negb (is_upper_char (clean_char c))
  && negb (mem_char (clean_char c) special_characters) = true.
Proof. by_cases_on_char c. Qed.

Lemma dec_char_file_safe (c : ascii) :
  is_dec_char c = true ->
  negb (Ascii.eqb c " ") && negb (is_upper_char c)
  && negb (mem_char c special_characters) = true.
Proof. by_cases_on_char c. Qed.

Lemma translated_has_no_special (s : string) :
  all_chars (fun c => negb (mem_char c special_characters))
    (lstrip (translate_delete special_characters s)) = true.
Proof. apply all_chars_lstrip, all_chars_filter. Qed.

(** X1: a sanitized name holds no space, no upper-case letter and none of
    the special characters, whatever the display name and identifier. *)
Theorem make_clean_repo_name_file_safe (repo : PackageRepository) :
  all_chars
    (fun c => negb (Ascii.eqb c " ") && negb (is_upper_char c)
              && negb (mem_char c special_characters))
    (make_clean_repo_name repo) = true.
Proof.
  rewrite make_clean_repo_name_eq, cleaned_display_name_map.
  rewrite all_chars_app, all_chars_map. apply andb_true_iff. split.
  - exact (all_chars_impl _ _ _ clean_char_file_safe
             (translated_has_no_special (repo_name repo))).
  - simpl.
    exact (all_chars_impl _ _ _ dec_char_file_safe
             (str_of_int_chars (repo_id repo))).
Qed.

(** X2: the sanitized name determines the identifier: two repositories
    with the same sanitized name have the same identifier, even when their
    display names differ. *)
Theorem sanitized_name_determines_id (r1 r2 : PackageRepository) :
  make_clean_repo_name r1 = make_clean_repo_name r2 ->
  repo_id r1 = repo_id r2.
Proof. apply make_clean_repo_name_id. Qed.

Lemma sanitized_name_determines_id_witness :
  make_clean_repo_name (sample_repo 5 "My Repo" [] [])
  = make_clean_repo_name (sample_repo 5 " my_[repo]" [] [])
  /\ repo_id (sample_repo 5 "My Repo" [] [])
     = repo_id (sample_repo 5 " my_[repo]" [] []).
Proof.
  split; [reflexivity|].
  apply (sanitized_name_determines_id (sample_repo 5 "My Repo" [] [])
           (sample_repo 5 " my_[repo]" [] [])).
  reflexivity.
Defined.

Lemma lstrip_clean_chars (u : string) :
  starts_clean u = true ->
  lstrip (map_chars clean_char u) = map_chars clean_char u.
Proof.
  destruct u as [|c u]; simpl; [reflexivity|].
  intros H. apply clean_char_keeps_nonspace in H.
  apply negb_true_iff in H. now rewrite H.
Qed.

(** X3: a sanitized name is never empty and has no whitespace left at
    either end: stripping it again changes nothing. *)
Theorem make_clean_repo_name_stripped (repo : PackageRepository) :
  make_clean_repo_name repo <> ""
  /\ strip (make_clean_repo_name repo) = make_clean_repo_name repo.
Proof.
  rewrite make_clean_repo_name_eq. split.
  - destruct (cleaned_display_name (repo_name repo)); discriminate.
  - rewrite strip_name_suffix. f_equal.
    rewrite cleaned_display_name_map.
    apply lstrip_clean_chars, lstrip_starts_clean.
Qed.

Lemma lstrip_all_space (s : string) :
  all_chars is_space_char s = true -> lstrip s = "".
Proof.
  induction s as [|c s IH]; simpl; [reflexivity|].
  intros H. apply andb_true_iff in H as [Hc Hs]. now rewrite Hc, IH.
Qed.

Lemma translate_delete_all_space (s : string) :
  all_chars (fun c => mem_char c special_characters || is_space_char c) s
  = true ->
  all_chars is_space_char (translate_delete special_characters s) = true.
Proof.
  unfold translate_delete.
  induction s as [|c s IH]; cbn [all_chars filter_chars]; [reflexivity|].
  intros H. apply andb_true_iff in H as [Hc Hs].
  destruct (mem_char c special_characters); cbn [negb orb] in *;
    [now apply IH|].
  cbn [all_chars]. now rewrite Hc, IH.
Qed.

(** X4: a display name that is empty, or made of special characters and
    whitespace only, is sanitized to the underscore and the identifier
    alone. *)
Theorem make_clean_repo_name_of_blank_name (repo : PackageRepository) :
  all_chars (fun c => mem_char c special_characters || is_space_char c)
    (repo_name repo) = true ->
  make_clean_repo_name repo = "_" ++ str_of_int (repo_id repo).
Proof.
  intros H. rewrite make_clean_repo_name_eq. unfold cleaned_display_name.
  now rewrite (lstrip_all_space _ (translate_delete_all_space _ H)).
Qed.

Lemma make_clean_repo_name_of_blank_name_witness :
  make_clean_repo_name (sample_repo 42 " [!] " [] []) = "_42"
  /\ make_clean_repo_name (sample_repo 42 "" [] []) = "_42".
Proof.
  split.
  - apply (make_clean_repo_name_of_blank_name (sample_repo 42 " [!] " [] [])).
    reflexivity.
  - apply (make_clean_repo_name_of_blank_name (sample_repo 42 "" [] [])).
    reflexivity.
Defined.

(** ** More on the debconf escaping *)

Lemma escape_char_no_newline (c : ascii) :
  all_chars (fun d => negb (Ascii.eqb d newline)) (escape_char c) = true.
Proof.
  unfold escape_char.
  destruct (Ascii.eqb c backslash); [reflexivity|].
  destruct (Ascii.eqb c newline) eqn:E; [reflexivity|].
  simpl. now rewrite E.
Qed.

Lemma debconf_escape_no_newline (s : string) :
  count_char newline (debconf_escape s) = 0.
Proof.
  rewrite debconf_escape_chars.
  induction s as [|c s IH]; simpl; [reflexivity|].
  unfold escape_char at 1.
  destruct (Ascii.eqb c backslash); [exact IH|].
  destruct (Ascii.eqb c newline) eqn:E; simpl; [exact IH|].
  now rewrite E.
Qed.

(** X5: an escaped value holds no newline: it fits on one line. *)
Theorem debconf_escape_single_line (s : string) :
  count_char newline (debconf_escape s) = 0.
Proof. apply debconf_escape_no_newline. Qed.

Lemma debconf_unescape_escape (s : string) :
  debconf_unescape (debconf_escape s) = s.
Proof.
  rewrite debconf_escape_chars.
  induction s as [|c s IH]; simpl; [reflexivity|].
  unfold escape_char at 1.
  destruct (Ascii.eqb_spec c backslash) as [->|Hb]; simpl.
  - now rewrite IH.
  - destruct (Ascii.eqb_spec c newline) as [->|Hn]; simpl.
    + now rewrite IH.
    + apply Ascii.eqb_neq in Hb. now rewrite Hb, IH.
Qed.

(** X6: the escaping loses nothing: the document is read back from its
    escaped value, so two documents with the same escaped value are the
    same document. *)
Theorem debconf_escape_injective (s1 s2 : string) :
  debconf_escape s1 = debconf_escape s2 -> s1 = s2.
Proof.
  intros H.
  rewrite <- (debconf_unescape_escape s1), <- (debconf_unescape_escape s2).
  now rewrite H.
Qed.

Lemma debconf_escape_injective_witness :
  debconf_escape (String backslash "n")
  = debconf_escape (String backslash "n")
  /\ String backslash "n" = String backslash "n".
Proof.
  split; [reflexivity|].
  apply (debconf_escape_injective (String backslash "n")
           (String backslash "n")).
  reflexivity.
Defined.

(** X7: escaping a concatenation is concatenating the escapings, and the
    escaped value is longer than the document by one character for each
    backslash and each newline. *)
Theorem debconf_escape_app (a b : string) :
  debconf_escape (a ++ b) = debconf_escape a ++ debconf_escape b
  /\ String.length (debconf_escape a)
     = String.length a + count_char backslash a + count_char newline a.
Proof.
  rewrite !debconf_escape_chars. split; [apply flat_map_chars_app|].
  induction a as [|c a IH]; simpl; [reflexivity|].
  unfold escape_char at 1.
  destruct (Ascii.eqb_spec c backslash) as [->|Hb]; simpl.
  - rewrite IH. lia.
  - destruct (Ascii.eqb_spec c newline) as [->|Hn]; simpl; rewrite IH; lia.
Qed.

(** ** More on the proxy *)

(** X8: the flag alone decides whether a machine gets a proxy, and a proxy
    that is returned is never empty nor made of whitespace only. *)
Theorem get_apt_proxy_for_node_never_blank (w : World) (node : Node) :
  match get_apt_proxy_for_node w node with
  | None => enable_http_proxy w = false
  | Some p => enable_http_proxy w = true /\ blank p = false
  end.
Proof.
  unfold get_apt_proxy_for_node.
  destruct (enable_http_proxy w); [|reflexivity].
  destruct (http_proxy w) as [p|]; [|now split].
  rewrite usable_proxy_not_blank.
  destruct (blank p) eqn:E; simpl; now split.
Qed.

(** ** More on the archive block *)

Lemma get_path_snoc (path : list string) (k : string) (y v : yaml) :
  Dict.get_path path y = Some v ->
  Dict.get_path (path ++ [k])%list y = Dict.get_path [k] v.
Proof.
  revert y. induction path as [|k0 path IH]; intros y; simpl.
  - now intros [= ->].
  - destruct y as [| | | |d]; try discriminate.
    destruct (Dict.get k0 d) as [v0|]; [|discriminate].
    apply IH.
Qed.

Lemma repository_entry_in_config (w : World) (node : Node)
    (preserve_sources : bool) (archive : Archive)
    (repo : PackageRepository) :
  get_default_archive w (fst (split_arch node)) = Some archive ->
  In repo (get_additional_repositories w (fst (split_arch node))) ->
  (forall r,
     In r (get_additional_repositories w (fst (split_arch node))) ->
     repo_id r = repo_id repo -> r = repo) ->
  get_archive_config w node preserve_sources
  = Ok [("apt", YMap (apt_block w node preserve_sources archive))]
  /\ Dict.get_path ["sources"; make_clean_repo_name repo]
       (YMap (apt_block w node preserve_sources archive))
     = Some (repository_entry node repo).
Proof.
  intros Harchive Hin Huniq.
  split; [exact (get_archive_config_some _ _ _ _ Harchive)|].
  destruct (apt_block_sources w node preserve_sources archive)
    as [sources0 Hsources].
  { intros E. now rewrite E in Hin. }
  simpl. rewrite Hsources.
  rewrite (fold_add_source_entry node repo _ sources0 Huniq (or_introl Hin)).
  reflexivity.
Qed.

Lemma entry_source (node : Node) (repo : PackageRepository) :
  Dict.get_path ["source"] (repository_entry node repo)
  = Some (YStr (repository_source node repo)).
Proof.
  unfold repository_entry. now destruct (truthy (repo_key repo)).
Qed.

(** X9: with identifiers that are unique among the additional
    repositories, every one of them has its own entry in the sources map,
    under its sanitized name: the signing key when the repository has one,
    followed by the source. *)
Theorem every_repository_has_its_entry (w : World) (node : Node)
    (preserve_sources : bool) (archive : Archive)
    (repo : PackageRepository) :
  get_default_archive w (fst (split_arch node)) = Some archive ->
  In repo (get_additional_repositories w (fst (split_arch node))) ->
  (forall r,
     In r (get_additional_repositories w (fst (split_arch node))) ->
     repo_id r = repo_id repo -> r = repo) ->
  exists apt,
    get_archive_config w node preserve_sources = Ok [("apt", YMap apt)]
    /\ Dict.get_path ["sources"; make_clean_repo_name repo] (YMap apt)
       = Some (YMap ((if truthy (repo_key repo)
                      then [("key", YStr (repo_key repo))] else [])
                     ++ [("source", YStr (repository_source node repo))])%list).
Proof.
  intros Harchive Hin Huniq.
  destruct (repository_entry_in_config w node preserve_sources archive repo
              Harchive Hin Huniq) as [H1 H2].
  eexists. split; [exact H1|]. rewrite H2.
  unfold repository_entry. now destruct (truthy (repo_key repo)).
Qed.

Lemma every_repository_has_its_entry_witness :
  exists apt,
    get_archive_config
      (sample_world
         [sample_repo_at 1 "Signed" "http://a.example/" "GPG" [] [];
          sample_repo_at 2 "Plain" "http://b.example/" "" [] []]
         (Raise NotImplementedError))
      (sample_node DISK_ERASING) true
    = Ok [("apt", YMap apt)]
    /\ Dict.get_path ["sources"; "signed_1"] (YMap apt)
       = Some (YMap [("key", YStr "GPG");
                     ("source", YStr "deb http://a.example/ xenial main")]).
Proof.
  apply (every_repository_has_its_entry
           (sample_world
              [sample_repo_at 1 "Signed" "http://a.example/" "GPG" [] [];
               sample_repo_at 2 "Plain" "http://b.example/" "" [] []]
              (Raise NotImplementedError))
           (sample_node DISK_ERASING) true sample_archive
           (sample_repo_at 1 "Signed" "http://a.example/" "GPG" [] [])).
  - reflexivity.
  - now left.
  - intros r [<-|[<-|[]]]; [reflexivity | discriminate].
Defined.

(** X10: a repository whose URL starts with ppa: has that URL, as it is,
    for source, whatever its distributions and components and whatever
    else the URL holds. *)
Theorem ppa_shorthand_source (w : World) (node : Node)
    (preserve_sources : bool) (archive : Archive)
    (repo : PackageRepository) :
  get_default_archive w (fst (split_arch node)) = Some archive ->
  In repo (get_additional_repositories w (fst (split_arch node))) ->
  (forall r,
     In r (get_additional_repositories w (fst (split_arch node))) ->
     repo_id r = repo_id repo -> r = repo) ->
  startswith "ppa:" (repo_url repo) = true ->
  exists apt,
    get_archive_config w node preserve_sources = Ok [("apt", YMap apt)]
    /\ Dict.get_path ["sources"; make_clean_repo_name repo; "source"]
         (YMap apt) = Some (YStr (repo_url repo)).
Proof.
  intros Harchive Hin Huniq Hppa.
  destruct (repository_entry_in_config w node preserve_sources archive repo
              Harchive Hin Huniq) as [H1 H2].
  eexists. split; [exact H1|].
  change ["sources"; make_clean_repo_name repo; "source"]
    with (["sources"; make_clean_repo_name repo] ++ ["source"])%list.
  rewrite (get_path_snoc _ _ _ _ H2), entry_source.
  unfold repository_source. now rewrite Hppa.
Qed.

Lemma ppa_shorthand_source_witness :
  exists apt,
    get_archive_config
      (sample_world
         [sample_repo_at 3 "Team PPA" "ppa:team/ppa.launchpad.net" ""
            ["trusty"] ["universe"]]
         (Raise NotImplementedError))
      (sample_node DISK_ERASING) false
    = Ok [("apt", YMap apt)]
    /\ Dict.get_path ["sources"; "team_ppa_3"; "source"] (YMap apt)
       = Some (YStr "ppa:team/ppa.launchpad.net").
Proof.
  apply (ppa_shorthand_source
           (sample_world
              [sample_repo_at 3 "Team PPA" "ppa:team/ppa.launchpad.net" ""
                 ["trusty"] ["universe"]]
              (Raise NotImplementedError))
           (sample_node DISK_ERASING) false sample_archive
           (sample_repo_at 3 "Team PPA" "ppa:team/ppa.launchpad.net" ""
              ["trusty"] ["universe"])).
  - reflexivity.
  - now left.
  - now intros r [<-|[]].
  - reflexivity.
Defined.

(** X11: a repository on the PPA web host (its URL holds
    ppa.launchpad.net and does not start with ppa:) has the one line
    deb <url> <series> main for source; its own distributions and
    components are not used. *)
Theorem ppa_host_source (w : World) (node : Node)
    (preserve_sources : bool) (archive : Archive)
    (repo : PackageRepository) :
  get_default_archive w (fst (split_arch node)) = Some archive ->
  In repo (get_additional_repositories w (fst (split_arch node))) ->
  (forall r,
     In r (get_additional_repositories w (fst (split_arch node))) ->
     repo_id r = repo_id repo -> r = repo) ->
  startswith "ppa:" (repo_url repo) = false ->
  contains "ppa.launchpad.net" (repo_url repo) = true ->
  exists apt,
    get_archive_config w node preserve_sources = Ok [("apt", YMap apt)]
    /\ Dict.get_path ["sources"; make_clean_repo_name repo; "source"]
         (YMap apt)
       = Some (YStr ("deb " ++ repo_url repo ++ " " ++ distro_series node
                       ++ " main")).
Proof.
  intros Harchive Hin Huniq Hppa Hhost.
  destruct (repository_entry_in_config w node preserve_sources archive repo
              Harchive Hin Huniq) as [H1 H2].
  eexists. split; [exact H1|].
  change ["sources"; make_clean_repo_name repo; "source"]
    with (["sources"; make_clean_repo_name repo] ++ ["source"])%list.
  rewrite (get_path_snoc _ _ _ _ H2), entry_source.
  unfold repository_source. now rewrite Hppa, Hhost.
Qed.

Lemma ppa_host_source_witness :
  exists apt,
    get_archive_config
      (sample_world
         [sample_repo_at 4 "Host PPA" "http://ppa.launchpad.net/team/ubuntu"
            "" ["trusty"] ["universe"]]
         (Raise NotImplementedError))
      (sample_node DISK_ERASING) false
    = Ok [("apt", YMap apt)]
    /\ Dict.get_path ["sources"; "host_ppa_4"; "source"] (YMap apt)
       = Some (YStr "deb http://ppa.launchpad.net/team/ubuntu xenial main").
Proof.
  apply (ppa_host_source
           (sample_world
              [sample_repo_at 4 "Host PPA"
                 "http://ppa.launchpad.net/team/ubuntu" ""
                 ["trusty"] ["universe"]]
              (Raise NotImplementedError))
           (sample_node DISK_ERASING) false sample_archive
           (sample_repo_at 4 "Host PPA"
              "http://ppa.launchpad.net/team/ubuntu" ""
              ["trusty"] ["universe"])).
  - reflexivity.
  - now left.
  - now intros r [<-|[]].
  - reflexivity.
  - reflexivity.
Defined.

Lemma concat_empty_cons (x : string) (l : list string) :
  String.concat "" (x :: l) = x ++ String.concat "" l.
Proof. destruct l; simpl; [now rewrite append_nil_r | reflexivity]. Qed.

Lemma fold_left_append (f : string -> string) (l : list string)
    (init : string) :
  fold_left (fun acc x => acc ++ f x) l init
  = init ++ String.concat "" (map f l).
Proof.
  revert init. induction l as [|x l IH]; intros init.
  - simpl. now rewrite append_nil_r.
  - cbn [fold_left map]. now rewrite IH, concat_empty_cons, append_assoc.
Qed.

(** X12: for a generic repository the source is one deb line per listed
    distribution, in the order of the list, each followed by a newline and
    all with the same components; without distributions it is the one line
    for the release series of the machine, with no newline. *)
Theorem generic_source_lines (node : Node) (repo : PackageRepository) :
  startswith "ppa:" (repo_url repo) = false ->
  contains "ppa.launchpad.net" (repo_url repo) = false ->
  repository_source node repo
  = match repo_distributions repo with
    | [] =>
        "deb " ++ repo_url repo ++ " " ++ distro_series node ++ " "
          ++ repository_components repo
    | dists =>
        String.concat ""
          (map (fun dist =>
                  "deb " ++ repo_url repo ++ " " ++ dist ++ " "
                    ++ repository_components repo ++ String newline "")
             dists)
    end.
Proof.
  intros Hppa Hhost. unfold repository_source. rewrite Hppa, Hhost.
  destruct (repo_distributions repo) as [|d dists]; [reflexivity|].
  cbn [nonempty negb].
  exact (fold_left_append
           (fun dist =>
              "deb " ++ repo_url repo ++ " " ++ dist ++ " "
                ++ repository_components repo ++ String newline "")
           (d :: dists) "").
Qed.

Lemma generic_source_lines_witness :
  repository_source (sample_node DISK_ERASING)
    (sample_repo 9 "Three" ["a"; "b"; "c"] ["main"])
  = String.concat ""
      [ "deb http://mirror.example/ubuntu a main" ++ String newline "";
        "deb http://mirror.example/ubuntu b main" ++ String newline "";
        "deb http://mirror.example/ubuntu c main" ++ String newline "" ].
Proof.
  apply (generic_source_lines (sample_node DISK_ERASING)
           (sample_repo 9 "Three" ["a"; "b"; "c"] ["main"]));
    reflexivity.
Defined.

Lemma lstrip_app_space (s : string) :
  lstrip (s ++ " ")
  = match lstrip s with
    | EmptyString => EmptyString
    | r => r ++ " "
    end.
Proof.
  induction s as [|c s IH]; [reflexivity|].
  cbn [append lstrip]. destruct (is_space_char c); [exact IH | reflexivity].
Qed.

Lemma rstrip_app_space (s : string) : rstrip (s ++ " ") = rstrip s.
Proof.
  induction s as [|c s IH]; [reflexivity|].
  cbn [append rstrip]. now rewrite IH.
Qed.

Lemma strip_app_space (s : string) : strip (s ++ " ") = strip s.
Proof.
  unfold strip. rewrite lstrip_app_space.
  destruct (lstrip s) as [|c r] eqn:E; [reflexivity|].
  apply rstrip_app_space.
Qed.

Lemma fold_components (l : list string) (c : string) (init : string) :
  fold_left (fun acc component => acc ++ component ++ " ") l (init ++ c ++ " ")
  = init ++ join " " (c :: l) ++ " ".
Proof.
  revert init c. induction l as [|d l IH]; intros init c.
  - reflexivity.
  - cbn [fold_left].
    rewrite (IH (init ++ c ++ " ") d).
    unfold join. cbn [String.concat].
    now rewrite !append_assoc.
Qed.

(** X13: the components of a generic repository are main when it lists
    none, and otherwise the listed components joined by single spaces,
    stripped of the whitespace at both ends. *)
Theorem repository_components_joined (repo : PackageRepository) :
  repository_components repo
  = match repo_components repo with
    | [] => "main"
    | components => strip (join " " components)
    end.
Proof.
  unfold repository_components.
  destruct (repo_components repo) as [|c l]; [reflexivity|].
  cbn [nonempty negb fold_left].
  rewrite (fold_components l c ""). cbn [append].
  apply strip_app_space.
Qed.

(** X14: the archive block always names the default archive, and only it,
    as primary and as security mirror for all architectures, and carries
    the flag it was asked for; it lists the disabled pockets exactly when
    there are some, and the proxy exactly when the machine has one; the
    additional repositories change none of these. *)
Theorem archive_block_mirrors (w : World) (node : Node)
    (preserve_sources : bool) (archive : Archive) :
  get_default_archive w (fst (split_arch node)) = Some archive ->
  exists apt,
    get_archive_config w node preserve_sources = Ok [("apt", YMap apt)]
    /\ Dict.get "preserve_sources_list" apt = Some (YBool preserve_sources)
    /\ Dict.get "primary" apt
       = Some (YSeq [YMap [("arches", YSeq [YStr "default"]);
                           ("uri", YStr (archive_url archive))]])
    /\ Dict.get "security" apt
       = Some (YSeq [YMap [("arches", YSeq [YStr "default"]);
                           ("uri", YStr (archive_url archive))]])
    /\ Dict.get "disable_suites" apt
       = (if nonempty (archive_disabled_pockets archive)
          then Some (YSeq (map YStr (archive_disabled_pockets archive)))
          else None)
    /\ Dict.get "proxy" apt
       = option_map YStr (get_apt_proxy_for_node w node).
Proof.
  intros Harchive.
  destruct (apt_head_fields w node preserve_sources archive)
    as (H1 & H2 & H3 & H4).
  exists (apt_block w node preserve_sources archive).
  split; [exact (get_archive_config_some _ _ _ _ Harchive)|].
  unfold apt_block. rewrite !fold_get_ne by reflexivity.
  repeat split; try assumption. apply apt_head_preserve.
Qed.

Lemma archive_block_mirrors_witness :
  exists apt,
    get_archive_config
      (sample_world [sample_repo 1 "primary" [] []]
         (Raise NotImplementedError))
      (sample_node DISK_ERASING) true
    = Ok [("apt", YMap apt)]
    /\ Dict.get "preserve_sources_list" apt = Some (YBool true)
    /\ Dict.get "disable_suites" apt = None
    /\ Dict.get "proxy" apt = Some (YStr "http://rack.example:8000/").
Proof.
  destruct (archive_block_mirrors
              (sample_world [sample_repo 1 "primary" [] []]
                 (Raise NotImplementedError))
              (sample_node DISK_ERASING) true sample_archive eq_refl)
    as (apt & H1 & H2 & _ & _ & H5 & H6).
  exists apt. repeat split; assumption.
Defined.

(** X15: the archive block has a sources map exactly when the default
    archive has a signing key or there is at least one additional
    repository; with neither, the key sources is absent. *)
Theorem archive_block_sources_presence (w : World) (node : Node)
    (preserve_sources : bool) (archive : Archive) :
  get_default_archive w (fst (split_arch node)) = Some archive ->
  exists apt,
    get_archive_config w node preserve_sources = Ok [("apt", YMap apt)]
    /\ Dict.has "sources" apt
       = truthy (archive_key archive)
         || nonempty (get_additional_repositories w (fst (split_arch node))).
Proof.
  intros Harchive.
  exists (apt_block w node preserve_sources archive).
  split; [exact (get_archive_config_some _ _ _ _ Harchive)|].
  pose proof (apt_head_sources w node preserve_sources archive) as Hhead.
  unfold Dict.has, apt_block.
  destruct (truthy (archive_key archive)).
  - now rewrite (fold_sources_some _ _ _ _ Hhead).
  - destruct (get_additional_repositories w (fst (split_arch node)))
      as [|r repos] eqn:E.
    + simpl. now rewrite Hhead.
    + rewrite (fold_sources_none _ _ _ Hhead); [reflexivity | discriminate].
Qed.

Lemma archive_block_sources_presence_witness :
  exists apt,
    get_archive_config bare_world (sample_node DISK_ERASING) false
    = Ok [("apt", YMap apt)]
    /\ Dict.has "sources" apt = false.
Proof.
  apply (archive_block_sources_presence bare_world
           (sample_node DISK_ERASING) false bare_archive).
  reflexivity.
Defined.

(** ** More on the composed configurations *)

Lemma cloud_config_built (w : World) (node : Node) (token : Token)
    (metadata_url base_url : string) (poweroff : bool)
    (poweroff_timeout : Z) (poweroff_condition : option string)
    (archive : Archive) :
  get_default_archive w (fst (split_arch node)) = Some archive ->
  exists cloud_config,
    _compose_cloud_init_preseed_config w node token metadata_url base_url
      poweroff poweroff_timeout poweroff_condition = Ok cloud_config.
Proof.
  intros Harchive. unfold _compose_cloud_init_preseed_config.
  rewrite (get_archive_config_some _ _ _ _ Harchive). cbn [rbind].
  eexists. reflexivity.
Qed.

Lemma cloud_config_fields (w : World) (node : Node) (token : Token)
    (metadata_url base_url : string) (poweroff : bool)
    (poweroff_timeout : Z) (poweroff_condition : option string)
    (cloud_config : dict) :
  _compose_cloud_init_preseed_config w node token metadata_url base_url
    poweroff poweroff_timeout poweroff_condition = Ok cloud_config ->
  exists archive,
    get_default_archive w (fst (split_arch node)) = Some archive
    /\ Dict.get "datasource" cloud_config
       = Some (YMap [
           ("MAAS",
             YMap [
               ("metadata_url", YStr metadata_url);
               ("consumer_key", YStr (consumer_key token));
               ("token_key", YStr (token_key token));
               ("token_secret", YStr (token_secret token)) ]) ])
    /\ Dict.get "rsyslog" cloud_config
       = Some (YMap [
           ("remotes",
             YMap [ ("maas", YStr (get_rsyslog_host_port w node)) ]) ])
    /\ Dict.get "system_info" cloud_config
       = Dict.get "system_info" (get_system_info w)
    /\ Dict.get "apt_proxy" cloud_config
       = option_map YStr (get_apt_proxy_for_node w node)
    /\ Dict.get "apt" cloud_config
       = Some (YMap (apt_block w node false archive))
    /\ Dict.get "power_state" cloud_config
       = if poweroff then
           Some (YMap ([ ("delay", YStr "now");
                         ("mode", YStr "poweroff");
                         ("timeout", YInt poweroff_timeout) ]
                       ++ match poweroff_condition with
                          | Some condition =>
                              [("condition", YStr condition)]
                          | None => []
                          end)%list)
         else None.
Proof.
  unfold _compose_cloud_init_preseed_config.
  destruct (get_archive_config w node false) as [archives|] eqn:E;
    [|discriminate].
  apply get_archive_config_shape in E as (archive & Harchive & ->).
  cbn [rbind]. intros [= <-]. exists archive.
  split; [exact Harchive|].
  cbn [Dict.update fold_left fst snd].
  destruct (get_apt_proxy_for_node w node) as [p|] eqn:Hproxy;
    [rewrite (get_apt_proxy_for_node_truthy _ _ _ Hproxy)|];
    (destruct poweroff; [destruct poweroff_condition|]);
    unfold Dict.set_in;
    rewrite ?get_set_eq;
    repeat split;
    rewrite ?get_set_eq, ?get_set_ne by reflexivity;
    rewrite ?get_set_eq, ?get_set_ne by reflexivity;
    rewrite ?get_set_eq, ?get_set_ne by reflexivity;
    reflexivity.
Qed.

(** X16: what a cloud-config says about power is decided by the three
    power-off arguments alone: without power-off there is no power_state
    entry, whatever timeout and condition are passed; with power-off the
    entry holds delay now, mode poweroff and the timeout, and a condition
    only when one is given. *)
Theorem cloud_config_power_state (w : World) (node : Node) (token : Token)
    (metadata_url base_url : string) (poweroff : bool)
    (poweroff_timeout : Z) (poweroff_condition : option string)
    (archive : Archive) :
  get_default_archive w (fst (split_arch node)) = Some archive ->
  exists cloud_config,
    _compose_cloud_init_preseed_config w node token metadata_url base_url
      poweroff poweroff_timeout poweroff_condition = Ok cloud_config
    /\ _compose_cloud_init_preseed w node token metadata_url base_url
         poweroff poweroff_timeout poweroff_condition
       = Ok ("#cloud-config"
               ++ String newline (safe_dump w (YMap cloud_config)))
    /\ Dict.get "power_state" cloud_config
       = if poweroff then
           Some (YMap ([ ("delay", YStr "now");
                         ("mode", YStr "poweroff");
                         ("timeout", YInt poweroff_timeout) ]
                       ++ match poweroff_condition with
                          | Some condition =>
                              [("condition", YStr condition)]
                          | None => []
                          end)%list)
         else None.
Proof.
  intros Harchive.
  destruct (cloud_config_built w node token metadata_url base_url poweroff
              poweroff_timeout poweroff_condition archive Harchive)
    as [cloud_config E].
  exists cloud_config. split; [exact E|]. split.
  - unfold _compose_cloud_init_preseed. now rewrite E.
  - now destruct (cloud_config_fields _ _ _ _ _ _ _ _ _ E)
      as (_ & _ & _ & _ & _ & _ & _ & H).
Qed.

Lemma cloud_config_power_state_witness :
  exists cloud_config,
    _compose_cloud_init_preseed_config bare_world (sample_node DISK_ERASING)
      {| consumer_key := "ck"; token_key := "tk"; token_secret := "ts" |}
      "http://rack.example/metadata" "http://rack.example" true 60 None
    = Ok cloud_config
    /\ Dict.get "power_state" cloud_config
       = Some (YMap [ ("delay", YStr "now"); ("mode", YStr "poweroff");
                      ("timeout", YInt 60) ]).
Proof.
  destruct (cloud_config_power_state bare_world (sample_node DISK_ERASING)
              {| consumer_key := "ck"; token_key := "tk";
                 token_secret := "ts" |}
              "http://rack.example/metadata" "http://rack.example"
              true 60%Z None bare_archive eq_refl)
    as (cloud_config & H1 & _ & H3).
  exists cloud_config. split; [exact H1 | exact H3].
Defined.

(** X17: in a cloud-config the datasource block carries the metadata URL
    that was passed in and the three fields of the token, the remote log
    target is the rack host on port 514, and the system info is the fixed
    mirror block, with the main archive for i386 and amd64 and the ports
    archive for the other architectures: neither the proxy, nor the archive
    block, nor the power-off entry overwrites them. *)
Theorem cloud_config_datasource_and_logging (w : World) (node : Node)
    (token : Token) (metadata_url base_url : string) (poweroff : bool)
    (poweroff_timeout : Z) (poweroff_condition : option string)
    (archive : Archive) :
  get_default_archive w (fst (split_arch node)) = Some archive ->
  exists cloud_config,
    _compose_cloud_init_preseed_config w node token metadata_url base_url
      poweroff poweroff_timeout poweroff_condition = Ok cloud_config
    /\ Dict.get "datasource" cloud_config
       = Some (YMap [
           ("MAAS",
             YMap [
               ("metadata_url", YStr metadata_url);
               ("consumer_key", YStr (consumer_key token));
               ("token_key", YStr (token_key token));
               ("token_secret", YStr (token_secret token)) ]) ])
    /\ Dict.get_path ["rsyslog"; "remotes"; "maas"] (YMap cloud_config)
       = Some (YStr (get_maas_facing_server_host w
                       (get_boot_rack_controller node) ++ ":514"))
    /\ Dict.get "system_info" cloud_config
       = Some (YMap [
           ("package_mirrors",
             YSeq [
               YMap [
                 ("arches", YSeq [YStr "i386"; YStr "amd64"]);
                 ("search",
                   YMap [
                     ("primary",
                       YSeq [YStr (archive_url (get_main_archive w))]);
                     ("security",
                       YSeq [YStr (archive_url (get_main_archive w))]) ]);
                 ("failsafe",
                   YMap [
                     ("primary", YStr "http://archive.ubuntu.com/ubuntu");
                     ("security", YStr "http://security.ubuntu.com/ubuntu")
                   ]) ];
               YMap [
                 ("arches", YSeq [YStr "default"]);
                 ("search",
                   YMap [
                     ("primary",
                       YSeq [YStr (archive_url (get_ports_archive w))]);
                     ("security",
                       YSeq [YStr (archive_url (get_ports_archive w))]) ]);
                 ("failsafe",
                   YMap [
                     ("primary", YStr "http://ports.ubuntu.com/ubuntu-ports");
                     ("security", YStr "http://ports.ubuntu.com/ubuntu-ports")
                   ]) ] ]) ]).
Proof.
  intros Harchive.
  destruct (cloud_config_built w node token metadata_url base_url poweroff
              poweroff_timeout poweroff_condition archive Harchive)
    as [cloud_config E].
  exists cloud_config. split; [exact E|].
  destruct (cloud_config_fields _ _ _ _ _ _ _ _ _ E)
    as (_ & _ & H1 & H2 & H3 & _).
  split; [exact H1|]. split; [|rewrite H3; apply system_info_block].
  simpl. now rewrite H2.
Qed.

Lemma cloud_config_datasource_and_logging_witness :
  exists cloud_config,
    _compose_cloud_init_preseed_config bare_world (sample_node DISK_ERASING)
      {| consumer_key := "ck"; token_key := "tk"; token_secret := "ts" |}
      "http://rack.example/metadata" "http://rack.example" true 60 None
    = Ok cloud_config
    /\ Dict.get_path ["rsyslog"; "remotes"; "maas"] (YMap cloud_config)
       = Some (YStr "rack.example:514")
    /\ Dict.get_path ["system_info"; "package_mirrors"] (YMap cloud_config)
       <> None.
Proof.
  destruct (cloud_config_datasource_and_logging bare_world
              (sample_node DISK_ERASING)
              {| consumer_key := "ck"; token_key := "tk";
                 token_secret := "ts" |}
              "http://rack.example/metadata" "http://rack.example"
              true 60%Z None bare_archive eq_refl)
    as (cloud_config & H1 & _ & H3 & H4).
  exists cloud_config. split; [exact H1|]. split; [exact H3|].
  simpl. rewrite H4. discriminate.
Defined.

Lemma apt_block_proxy (w : World) (node : Node) (preserve_sources : bool)
    (archive : Archive) :
  Dict.get "proxy" (apt_block w node preserve_sources archive)
  = option_map YStr (get_apt_proxy_for_node w node).
Proof.
  unfold apt_block. rewrite fold_get_ne by reflexivity.
  now destruct (apt_head_fields w node preserve_sources archive)
    as (_ & _ & _ & H).
Qed.

(** X18: in the cloud-config and in the debconf configuration alike, the
    top-level apt_proxy entry and the proxy entry of the archive block are
    the same: both are the proxy of the machine, or both are absent. *)
Theorem proxy_entries_agree (w : World) (node : Node) (token : Token)
    (metadata_url base_url : string) (poweroff : bool)
    (poweroff_timeout : Z) (poweroff_condition : option string)
    (archive : Archive) :
  get_default_archive w (fst (split_arch node)) = Some archive ->
  exists cloud_config config,
    _compose_cloud_init_preseed_config w node token metadata_url base_url
      poweroff poweroff_timeout poweroff_condition = Ok cloud_config
    /\ compose_cloud_init_preseed_config w node token base_url = Ok config
    /\ Dict.get "apt_proxy" cloud_config
       = option_map YStr (get_apt_proxy_for_node w node)
    /\ Dict.get_path ["apt"; "proxy"] (YMap cloud_config)
       = option_map YStr (get_apt_proxy_for_node w node)
    /\ Dict.get "apt_proxy" config
       = option_map YStr (get_apt_proxy_for_node w node)
    /\ Dict.get_path ["apt"; "proxy"] (YMap config)
       = option_map YStr (get_apt_proxy_for_node w node).
Proof.
  intros Harchive.
  destruct (cloud_config_built w node token metadata_url base_url poweroff
              poweroff_timeout poweroff_condition archive Harchive)
    as [cloud_config E].
  destruct (compose_cloud_init_preseed_config w node token base_url)
    as [config|e] eqn:E'.
  2:{ unfold compose_cloud_init_preseed_config in E'.
      rewrite (get_archive_config_some _ _ _ _ Harchive) in E'.
      discriminate. }
  exists cloud_config, config.
  destruct (cloud_config_fields _ _ _ _ _ _ _ _ _ E)
    as (a1 & _ & _ & _ & _ & Hp1 & Ha1 & _).
  destruct (debconf_config_facts _ _ _ _ _ E')
    as (a2 & _ & _ & Hp2 & _ & Ha2 & _).
  repeat split; try assumption.
  - simpl. rewrite Ha1, apt_block_proxy.
    now destruct (get_apt_proxy_for_node w node).
  - simpl. rewrite Ha2, apt_block_proxy.
    now destruct (get_apt_proxy_for_node w node).
Qed.

Lemma proxy_entries_agree_witness :
  exists cloud_config,
    _compose_cloud_init_preseed_config
      (sample_world [] (Raise NotImplementedError))
      (sample_node DISK_ERASING)
      {| consumer_key := "ck"; token_key := "tk"; token_secret := "ts" |}
      "http://rack.example/metadata" "http://rack.example" false 0 None
    = Ok cloud_config
    /\ Dict.get "apt_proxy" cloud_config
       = Some (YStr "http://rack.example:8000/")
    /\ Dict.get_path ["apt"; "proxy"] (YMap cloud_config)
       = Some (YStr "http://rack.example:8000/").
Proof.
  destruct (proxy_entries_agree
              (sample_world [] (Raise NotImplementedError))
              (sample_node DISK_ERASING)
              {| consumer_key := "ck"; token_key := "tk";
                 token_secret := "ts" |}
              "http://rack.example/metadata" "http://rack.example"
              false 0%Z None sample_archive eq_refl)
    as (cloud_config & config & H1 & _ & H3 & H4 & _).
  exists cloud_config. repeat split; assumption.
Defined.

(** X19: on the curtin fallback path the metadata URL written in the
    datasource block of the document is the URL the OS-specific provider
    was called with, and that call is the only one. *)
Theorem curtin_fallback_keeps_provider_url (w : World) (node : Node)
    (log : list DelegateCall) (archive : Archive) :
  get_default_archive w (fst (split_arch node)) = Some archive ->
  get_preseed_data w CURTIN node (get_token_for_node w node)
    (absolute_reverse w "curtin-metadata" []
       (rack_url (get_boot_rack_controller node)))
  = Raise NotImplementedError ->
  exists cloud_config call,
    compose_preseed w CURTIN node log
    = (Ok ("#cloud-config"
             ++ String newline (safe_dump w (YMap cloud_config))),
       (log ++ [call])%list)
    /\ _compose_cloud_init_preseed_config w node (get_token_for_node w node)
         (call_metadata_url call)
         (rack_url (get_boot_rack_controller node)) false 3600%Z None
       = Ok cloud_config
    /\ call_kind call = CURTIN
    /\ Dict.get_path ["datasource"; "MAAS"; "metadata_url"]
         (YMap cloud_config)
       = Some (YStr (call_metadata_url call)).
Proof.
  intros Harchive Hdelegate.
  destruct (cloud_config_built w node (get_token_for_node w node)
              (absolute_reverse w "curtin-metadata" []
                 (rack_url (get_boot_rack_controller node)))
              (rack_url (get_boot_rack_controller node))
              false 3600%Z None archive Harchive)
    as [cloud_config E].
  exists cloud_config,
    {| call_kind := CURTIN; call_node := node;
       call_token := get_token_for_node w node;
       call_metadata_url :=
         absolute_reverse w "curtin-metadata" []
           (rack_url (get_boot_rack_controller node)) |}.
  split; [|split; [exact E|split; [reflexivity|]]].
  - unfold compose_preseed, try_except, call_get_preseed_data, lift,
      compose_curtin_preseed, _compose_cloud_init_preseed,
      _get_metadata_url.
    simpl. rewrite Hdelegate. simpl. rewrite E. reflexivity.
  - destruct (cloud_config_fields _ _ _ _ _ _ _ _ _ E)
      as (_ & _ & H & _).
    simpl. now rewrite H.
Qed.

Lemma curtin_fallback_keeps_provider_url_witness :
  exists cloud_config call,
    compose_preseed (sample_world [] (Raise NotImplementedError))
      CURTIN (sample_node DISK_ERASING) []
    = (Ok ("#cloud-config"
             ++ String newline (flow_dump (YMap cloud_config))),
       [call])
    /\ call_metadata_url call = "http://rack.example/curtin-metadata"
    /\ Dict.get_path ["datasource"; "MAAS"; "metadata_url"]
         (YMap cloud_config)
       = Some (YStr "http://rack.example/curtin-metadata").
Proof.
  destruct (curtin_fallback_keeps_provider_url
              (sample_world [] (Raise NotImplementedError))
              (sample_node DISK_ERASING) [] sample_archive
              eq_refl eq_refl)
    as (cloud_config & call & H1 & _ & _ & H4).
  exists cloud_config, call. split; [exact H1|].
  simpl in H1. injection H1 as _ <-. split; [reflexivity | exact H4].
Defined.

Lemma count_char_app (c : ascii) (a b : string) :
  count_char c (a ++ b) = count_char c a + count_char c b.
Proof.
  induction a as [|d a IH]; simpl; [reflexivity|]. rewrite IH. lia.
Qed.

(** X20: when neither the metadata URL nor the encoded credentials hold a
    newline, the debconf preseed is exactly four lines: it has three
    newlines, none of them inside the local configuration. *)
Theorem debconf_preseed_has_four_lines (w : World) (node : Node)
    (token : Token) (base_url : string) (archive : Archive) :
  get_default_archive w (fst (split_arch node)) = Some archive ->
  count_char newline (absolute_reverse w "metadata" [] base_url) = 0 ->
  count_char newline
    (urlencode w
       [ ("oauth_consumer_key", consumer_key token);
         ("oauth_token_key", token_key token);
         ("oauth_token_secret", token_secret token) ]) = 0 ->
  exists document,
    compose_cloud_init_preseed w node token base_url = Ok document
    /\ count_char newline document = 3.
Proof.
  intros Harchive Hurl Hcred.
  unfold compose_cloud_init_preseed.
  destruct (compose_cloud_init_preseed_config w node token base_url)
    as [config|e] eqn:E.
  2:{ unfold compose_cloud_init_preseed_config in E.
      rewrite (get_archive_config_some _ _ _ _ Harchive) in E.
      discriminate. }
  cbn [rbind]. eexists. split; [reflexivity|].
  unfold join, preseed_line. cbn [map String.concat].
  rewrite !count_char_app, Hurl, Hcred, debconf_escape_no_newline.
  reflexivity.
Qed.

Lemma debconf_preseed_has_four_lines_witness :
  exists document,
    compose_cloud_init_preseed
      (sample_world [sample_repo 2 "x" ["a"; "b"] []]
         (Raise NotImplementedError))
      (sample_node DISK_ERASING)
      {| consumer_key := "ck"; token_key := "tk"; token_secret := "ts" |}
      "http://rack.example"
    = Ok document
    /\ count_char newline document = 3.
Proof.
  apply (debconf_preseed_has_four_lines
           (sample_world [sample_repo 2 "x" ["a"; "b"] []]
              (Raise NotImplementedError))
           (sample_node DISK_ERASING)
           {| consumer_key := "ck"; token_key := "tk";
              token_secret := "ts" |}
           "http://rack.example" sample_archive);
    reflexivity.
Defined.

(** ** Failures of the composer *)

(** X21: without a default archive for the architecture nothing is
    composed: the archive block and the three documents fail with the
    same error; a commissioning request fails without a call of the
    provider; and when the provider is not implemented for a request of
    another kind, the failure of the fallback document is not caught by
    the handler of the provider call. *)
Theorem missing_default_archive_fails (w : World) (node : Node)
    (token : Token) (base_url : string) (preserve_sources : bool)
    (log : list DelegateCall) (preseed_type : PRESEED_TYPE) :
  get_default_archive w (fst (split_arch node)) = None ->
  get_archive_config w node preserve_sources = Raise AttributeError
  /\ compose_commissioning_preseed w node token base_url
     = Raise AttributeError
  /\ compose_curtin_preseed w node token base_url = Raise AttributeError
  /\ compose_cloud_init_preseed w node token base_url = Raise AttributeError
  /\ compose_preseed w COMMISSIONING node log = (Raise AttributeError, log)
  /\ (preseed_type <> COMMISSIONING ->
      get_preseed_data w preseed_type node (get_token_for_node w node)
        (_get_metadata_url w preseed_type
           (rack_url (get_boot_rack_controller node)))
      = Raise NotImplementedError ->
      fst (compose_preseed w preseed_type node log) = Raise AttributeError).
Proof.
  intros Hnone.
  assert (forall ps, get_archive_config w node ps = Raise AttributeError)
    as Hcfg.
  { intros ps. unfold get_archive_config. now rewrite Hnone. }
  assert (forall tok murl base po pt pc,
            _compose_cloud_init_preseed w node tok murl base po pt pc
            = Raise AttributeError) as Hcloud.
  { intros. unfold _compose_cloud_init_preseed,
      _compose_cloud_init_preseed_config. now rewrite Hcfg. }
  assert (forall tok base,
            compose_cloud_init_preseed w node tok base
            = Raise AttributeError) as Hdebconf.
  { intros. unfold compose_cloud_init_preseed,
      compose_cloud_init_preseed_config. now rewrite Hcfg. }
  split; [apply Hcfg|].
  split; [apply Hcloud|]. split; [apply Hcloud|].
  split; [apply Hdebconf|].
  split.
  - unfold compose_preseed, lift, compose_commissioning_preseed. simpl.
    now rewrite Hcloud.
  - intros Hkind Hdelegate.
    unfold compose_preseed, try_except, call_get_preseed_data, lift,
      compose_curtin_preseed.
    destruct preseed_type; try congruence;
      simpl PRESEED_TYPE_eqb; cbv iota; cbv beta;
      rewrite Hdelegate; cbv iota; cbv beta; simpl fst;
      rewrite ?Hcloud, ?Hdebconf; reflexivity.
Qed.

Lemma missing_default_archive_fails_witness :
  compose_preseed no_archive_world COMMISSIONING (sample_node DISK_ERASING) []
  = (Raise AttributeError, [])
  /\ fst (compose_preseed no_archive_world DEFAULT
            (sample_node DISK_ERASING) [])
     = Raise AttributeError.
Proof.
  destruct (missing_default_archive_fails no_archive_world
              (sample_node DISK_ERASING)
              {| consumer_key := "ck"; token_key := "tk";
                 token_secret := "ts" |}
              "http://rack.example" false [] DEFAULT eq_refl)
    as (_ & _ & _ & _ & H5 & H6).
  split; [exact H5|]. apply H6; [discriminate | reflexivity].
Defined.

(** ** The worker token *)

Lemma rev_head_last {A : Type} (l : list A) (x d : A) (r : list A) :
  rev l = x :: r -> last l d = x.
Proof.
  intros H. rewrite <- (rev_involutive l), H. simpl.
  apply last_last.
Qed.

(** X22: when the worker user has tokens, get_token returns the last one
    of the list and creates none; when the user has none, it creates a
    token, once, and returns it. *)
Theorem get_token_last_or_created (User AuthToken : Type)
    (get_worker_user : User) (get_auth_tokens : User -> list AuthToken)
    (create_auth_token : User -> AuthToken) :
  TemporalWorker.get_token User AuthToken get_worker_user get_auth_tokens
    create_auth_token
  = match get_auth_tokens get_worker_user with
    | [] => (create_auth_token get_worker_user, [get_worker_user])
    | token :: tokens => (last tokens token, [])
    end.
Proof.
  unfold TemporalWorker.get_token.
  destruct (get_auth_tokens get_worker_user) as [|t l] eqn:E;
    [reflexivity|].
  destruct (rev (t :: l)) as [|x r] eqn:R.
  - apply (f_equal (@List.length _)) in R.
    rewrite length_rev in R. discriminate.
  - f_equal. rewrite <- (rev_head_last (t :: l) x t r R).
    destruct l; reflexivity.
Qed.

(** ** Sample tags *)

Import SampleData.

Lemma string_of_uint_no_minus (d : Decimal.uint) :
  all_chars (fun c => negb (Ascii.eqb c "-")) (NilEmpty.string_of_uint d)
  = true.
Proof. induction d; simpl; try rewrite IHd; reflexivity. Qed.

Lemma zeros_no_minus (k : nat) :
  all_chars (fun c => negb (Ascii.eqb c "-")) (zeros k) = true.
Proof. induction k as [|k IH]; simpl; [reflexivity | exact IH]. Qed.

Lemma uint_of_zeros (k : nat) (d : Decimal.uint) :
  NilEmpty.uint_of_string (zeros k ++ NilEmpty.string_of_uint d)
  = Some (Nat.iter k Decimal.D0 d).
Proof.
  induction k as [|k IH]; simpl.
  - apply NilEmpty.usu.
  - now rewrite IH.
Qed.

Lemma of_uint_zeros (k : nat) (d : Decimal.uint) :
  N.of_uint (Nat.iter k Decimal.D0 d) = N.of_uint d.
Proof. induction k as [|k IH]; simpl; [reflexivity | exact IH]. Qed.

Lemma str_of_int_nonneg (n : Z) :
  (0 <= n)%Z ->
  str_of_int n = NilEmpty.string_of_uint (N.to_uint (Z.to_N n)).
Proof. destruct n as [|p|p]; intros H; try reflexivity. lia. Qed.

Lemma digits_value_zfill (width : nat) (n : Z) :
  (0 <= n)%Z ->
  digits_value (zfill width (str_of_int n)) = Some (Z.to_N n).
Proof.
  intros H. unfold digits_value, zfill.
  rewrite (str_of_int_nonneg n H) at 2.
  rewrite uint_of_zeros, of_uint_zeros.
  now rewrite DecimalN.Unsigned.of_to.
Qed.

Lemma zfill_no_minus (width : nat) (n : Z) :
  (0 <= n)%Z ->
  all_chars (fun c => negb (Ascii.eqb c "-")) (zfill width (str_of_int n))
  = true.
Proof.
  intros H. unfold zfill. rewrite all_chars_app, zeros_no_minus.
  rewrite (str_of_int_nonneg n H). apply string_of_uint_no_minus.
Qed.

Lemma zfill_inj (w1 w2 : nat) (m n : Z) :
  (0 <= m)%Z -> (0 <= n)%Z ->
  zfill w1 (str_of_int m) = zfill w2 (str_of_int n) -> m = n.
Proof.
  intros Hm Hn E. apply (f_equal digits_value) in E.
  rewrite !digits_value_zfill in E by assumption.
  injection E as E. lia.
Qed.

Lemma format_03_inj (m n : Z) : format_03 m = format_03 n -> m = n.
Proof.
  unfold format_03.
  destruct (Z.ltb_spec m 0) as [Hm|Hm]; destruct (Z.ltb_spec n 0) as [Hn|Hn];
    intros E.
  - simpl in E. injection E as E.
    apply zfill_inj in E; lia.
  - pose proof (zfill_no_minus 3 n Hn) as H. rewrite <- E in H.
    discriminate.
  - pose proof (zfill_no_minus 3 m Hm) as H. rewrite E in H.
    discriminate.
  - now apply zfill_inj in E.
Qed.

Lemma length_zeros (k : nat) : String.length (zeros k) = k.
Proof. induction k as [|k IH]; simpl; [reflexivity | now rewrite IH]. Qed.

Lemma length_append (a b : string) :
  String.length (a ++ b) = String.length a + String.length b.
Proof. induction a as [|c a IH]; simpl; [reflexivity | now rewrite IH]. Qed.

Lemma make_tags_from_names (utcnow : nat -> Z) (i : nat) (prefix : string)
    (ns : list Z) :
  map tag_name (make_tags_from utcnow i prefix ns)
  = map (fun n => prefix ++ format_03 n) ns.
Proof.
  revert i. induction ns as [|n ns IH]; intros i; simpl; [reflexivity|].
  now rewrite IH.
Qed.

Lemma make_tags_from_times (utcnow : nat -> Z) (i : nat) (prefix : string)
    (ns : list Z) :
  Forall (fun tag => tag_created tag = tag_updated tag)
    (make_tags_from utcnow i prefix ns).
Proof.
  revert i. induction ns as [|n ns IH]; intros i; simpl; constructor;
    [reflexivity | apply IH].
Qed.

Lemma NoDup_map_injective {A B : Type} (f : A -> B) (l : list A) :
  (forall x y, f x = f y -> x = y) -> NoDup l -> NoDup (map f l).
Proof.
  intros Hinj H. induction H as [|x l Hx Hl IH]; simpl; constructor;
    [|exact IH].
  intros Hin. apply in_map_iff in Hin as (y & E & Hy).
  apply Hinj in E. subst y. now apply Hx.
Qed.

(** X23: the tags make_tags builds are named by the prefix followed by
    the number padded with zeros to at least three characters, one tag per
    number and in the same order; numbers that are all different give
    names that are all different, and every tag is created and updated at
    the same time. *)
Theorem make_tags_names_distinct (range_one : Z -> list Z)
    (utcnow : nat -> Z) (count : Z) (prefix : string) :
  NoDup (range_one count) ->
  map tag_name (make_tags range_one utcnow count prefix)
  = map (fun n => prefix ++ format_03 n) (range_one count)
  /\ NoDup (map tag_name (make_tags range_one utcnow count prefix))
  /\ Forall (fun n => 3 <= String.length (format_03 n)) (range_one count)
  /\ Forall (fun tag => tag_created tag = tag_updated tag)
       (make_tags range_one utcnow count prefix).
Proof.
  intros Hnodup. unfold make_tags. rewrite make_tags_from_names.
  split; [reflexivity|]. split; [|split].
  - apply NoDup_map_injective; [|exact Hnodup].
    intros m n E. apply append_cancel_l in E. now apply format_03_inj.
  - apply Forall_forall. intros n _. unfold format_03, zfill.
    destruct (n <? 0)%Z; rewrite !length_append, length_zeros;
      cbn [String.length]; lia.
  - apply make_tags_from_times.
Qed.

Lemma make_tags_names_distinct_witness :
  map tag_name
    (make_tags (fun count => map Z.of_nat (seq 1 (Z.to_nat count)))
       (fun i => Z.of_nat i) 3 "tag-")
  = ["tag-001"; "tag-002"; "tag-003"]
  /\ NoDup (map tag_name
              (make_tags (fun count => map Z.of_nat (seq 1 (Z.to_nat count)))
                 (fun i => Z.of_nat i) 3 "tag-")).
Proof.
  destruct (make_tags_names_distinct
              (fun count => map Z.of_nat (seq 1 (Z.to_nat count)))
              (fun i => Z.of_nat i) 3%Z "tag-") as (H1 & H2 & _).
  - simpl. repeat constructor; simpl; intuition discriminate.
  - split; [exact H1 | exact H2].
Defined.

(** ** Repositories that share a sanitized name *)

Lemma fold_add_source_names (node : Node) (repos : list PackageRepository)
    (sources : dict) (k : string) :
  (forall r, In r repos -> make_clean_repo_name r <> k) ->
  Dict.get k (fold_left (add_source node) repos sources)
  = Dict.get k sources.
Proof.
  revert sources.
  induction repos as [|r repos IH]; intros sources Hk; simpl; [reflexivity|].
  rewrite IH by (intros r' Hr'; apply Hk; now right).
  unfold add_source. apply get_set_ne.
  apply String.eqb_neq. intros E. apply (Hk r); [now left | now symmetry].
Qed.

(** X24: when several additional repositories get the same sanitized
    name, the sources map keeps one entry under that name, the one of the
    repository that comes last in the list. *)
Theorem last_repository_with_a_name_wins (w : World) (node : Node)
    (preserve_sources : bool) (archive : Archive)
    (before after : list PackageRepository) (repo : PackageRepository) :
  get_default_archive w (fst (split_arch node)) = Some archive ->
  get_additional_repositories w (fst (split_arch node))
  = (before ++ repo :: after)%list ->
  (forall r, In r after ->
             make_clean_repo_name r <> make_clean_repo_name repo) ->
  exists apt,
    get_archive_config w node preserve_sources = Ok [("apt", YMap apt)]
    /\ Dict.get_path ["sources"; make_clean_repo_name repo] (YMap apt)
       = Some (YMap ((if truthy (repo_key repo)
                      then [("key", YStr (repo_key repo))] else [])
                     ++ [("source", YStr (repository_source node repo))])%list).
Proof.
  intros Harchive Hrepos Hafter.
  exists (apt_block w node preserve_sources archive).
  split; [exact (get_archive_config_some _ _ _ _ Harchive)|].
  destruct (apt_block_sources w node preserve_sources archive)
    as [sources0 Hsources].
  { rewrite Hrepos. now destruct before. }
  simpl. rewrite Hsources, Hrepos, fold_left_app. simpl.
  rewrite (fold_add_source_names node after _ _ Hafter).
  unfold add_source at 1. rewrite get_set_eq.
  unfold repository_entry. now destruct (truthy (repo_key repo)).
Qed.

Lemma last_repository_with_a_name_wins_witness :
  exists apt,
    get_archive_config
      (sample_world
         [sample_repo_at 7 "Mirror" "http://first.example/" "" [] [];
          sample_repo_at 7 "mirror" "http://second.example/" "" [] []]
         (Raise NotImplementedError))
      (sample_node DISK_ERASING) false
    = Ok [("apt", YMap apt)]
    /\ Dict.get_path ["sources"; "mirror_7"] (YMap apt)
       = Some (YMap [("source",
                       YStr "deb http://second.example/ xenial main")]).
Proof.
  apply (last_repository_with_a_name_wins
           (sample_world
              [sample_repo_at 7 "Mirror" "http://first.example/" "" [] [];
               sample_repo_at 7 "mirror" "http://second.example/" "" [] []]
              (Raise NotImplementedError))
           (sample_node DISK_ERASING) false sample_archive
           [sample_repo_at 7 "Mirror" "http://first.example/" "" [] []]
           []
           (sample_repo_at 7 "mirror" "http://second.example/" "" [] [])).
  - reflexivity.
  - reflexivity.
  - intros r [].
Defined.
